(** * RecursiveDevKit (orcardk.py): a shallow embedding and its properties

    The program keeps three markdown documents (project-context.md,
    development-state.md, prompt-template.md) and edits them with Python's
    [re] module and string methods.  This development embeds

    - the string methods the program calls ([strip], [split], [startswith],
      slicing, [join], [lower], [in]),
    - the fragment of Python regular expressions its patterns are written in,
      with [re.search], [re.match], [re.sub] and the replacement-template
      rules of [re.sub],
    - the four operations [init], [update_prompt], [update_state] and
      [update_phase] over a small file-system state with an event trace,

    and then proves the properties of the operations.

    A Python [str] is a [string] whose characters are the code points
    U+0000..U+00FF; the character classes below are Python's, restricted to
    that range.  A file holds the text that text-mode [read()] returns and
    [write()] receives. *)

From Stdlib Require Import String Ascii List Bool Arith NArith Lia.
Import ListNotations.
Local Open Scope string_scope.

(** ** Python string methods *)

Module PyStr.

(** The line feed, written [\n] in the source. *)
Definition LF : string := String "010"%char EmptyString.

(** [str.isspace] on one character. *)
Definition is_space (c : ascii) : bool :=
  let n := N_of_ascii c in
  ((9 <=? n) && (n <=? 13) || (28 <=? n) && (n <=? 32)
   || (n =? 133) || (n =? 160))%N.

(** [str.isdecimal] on one character: what [\d] accepts. *)
Definition is_decimal (c : ascii) : bool :=
  let n := N_of_ascii c in ((48 <=? n) && (n <=? 57))%N.

Definition is_octal (c : ascii) : bool :=
  let n := N_of_ascii c in ((48 <=? n) && (n <=? 55))%N.

Definition is_ascii_letter (c : ascii) : bool :=
  let n := N_of_ascii c in
  ((65 <=? n) && (n <=? 90) || (97 <=? n) && (n <=? 122))%N.

Definition digit_value (c : ascii) : nat := N.to_nat (N_of_ascii c) - 48.

(** [s.lstrip()], [s.rstrip()], [s.strip()]. *)
Fixpoint lstrip (s : string) : string :=
  match s with
  | String c s' => if is_space c then lstrip s' else s
  | EmptyString => EmptyString
  end.

Fixpoint rstrip (s : string) : string :=
  match s with
  | EmptyString => EmptyString
  | String c s' =>
      match rstrip s' with
      | EmptyString => if is_space c then EmptyString else String c EmptyString
      | r => String c r
      end
  end.

Definition strip (s : string) : string := rstrip (lstrip s).

(** [s.split(sep)] for a one-character separator. *)
Fixpoint split (sep : ascii) (s : string) : list string :=
  match s with
  | EmptyString => [EmptyString]
  | String c s' =>
      if Ascii.eqb c sep then EmptyString :: split sep s'
      else match split sep s' with
           | h :: t => String c h :: t
           | [] => [String c EmptyString]
           end
  end.

(** [s.split(sep)[0]]. *)
Definition split_head (sep : ascii) (s : string) : string :=
  hd EmptyString (split sep s).

(** [s.startswith(p)]. *)
Definition startswith (p s : string) : bool := String.prefix p s.

(** [s[n:]] and [s[:n]]. *)
Fixpoint drop (n : nat) (s : string) : string :=
  match n, s with
  | S n', String _ s' => drop n' s'
  | _, _ => s
  end.

Fixpoint take (n : nat) (s : string) : string :=
  match n, s with
  | S n', String c s' => String c (take n' s')
  | _, _ => EmptyString
  end.

(** [s[len(p):]] when [s] starts with [p]. *)
Fixpoint strip_prefix (p s : string) : option string :=
  match p, s with
  | EmptyString, _ => Some s
  | String a p', String b s' => if Ascii.eqb a b then strip_prefix p' s' else None
  | String _ _, EmptyString => None
  end.

(** [sub in s]. *)
Fixpoint contains (sub s : string) : bool :=
  match strip_prefix sub s with
  | Some _ => true
  | None => match s with
            | String _ s' => contains sub s'
            | EmptyString => false
            end
  end.

(** [c in s] for one character. *)
Fixpoint has_char (c : ascii) (s : string) : bool :=
  match s with
  | EmptyString => false
  | String a s' => Ascii.eqb a c || has_char c s'
  end.

(** [sep.join(l)]. *)
Definition join (sep : string) (l : list string) : string := String.concat sep l.

(** [l[-n:]] for [n > 0], and [l[:n]]. *)
Definition last_n {A} (n : nat) (l : list A) : list A := skipn (List.length l - n) l.
Definition first_n {A} (n : nat) (l : list A) : list A := firstn n l.

(** [s.lower()]. *)
Definition lower_char (c : ascii) : ascii :=
  let n := N_of_ascii c in
  if ((65 <=? n) && (n <=? 90)
      || (192 <=? n) && (n <=? 222) && negb (n =? 215))%N
  then ascii_of_N (n + 32) else c.

Fixpoint lower (s : string) : string :=
  match s with
  | EmptyString => EmptyString
  | String c s' => String (lower_char c) (lower s')
  end.

(** Truth value of an optional string argument ([None] and [""] are false). *)
Definition truthy (o : option string) : bool :=
  match o with
  | Some (String _ _) => true
  | _ => false
  end.

End PyStr.
Import PyStr.

(** ** The regular expressions of the program *)

Module Re.

(** Character classes: [.] under [re.DOTALL], [.] without it, [\d], [\s]. *)
Inductive cls := CAny | CLine | CDigit | CSpace.

Definition in_cls (c : cls) (a : ascii) : bool :=
  match c with
  | CAny => true
  | CLine => negb (Ascii.eqb a "010")
  | CDigit => is_decimal a
  | CSpace => is_space a
  end.

Inductive re :=
| Lit (l : string)          (* literal text *)
| One (c : cls)             (* one character of a class *)
| Lazy (c : cls)            (* c*?  *)
| Plus (c : cls)            (* c+   *)
| Seq (r1 r2 : re)          (* r1 r2 *)
| Alt (r1 r2 : re)          (* r1|r2 *)
| Grp (i : nat) (r : re)    (* ( r ), the i-th capturing group *)
| Ahead (r : re)            (* (?= r ) *)
| Eos                       (* \Z *)
| Bos.                      (* ^ (no re.MULTILINE) *)

Definition captures := list (nat * string).

(** A matcher runs on the rest of the subject; it succeeds with the text
    left after the match and the groups captured. *)
Definition res := (string * captures)%type.

Section Loops.
Variable c : cls.
Variable k : string -> option res.

(** [c*?]: the continuation first, one more character only if it fails. *)
Fixpoint lazy_loop (s : string) : option res :=
  match k s with
  | Some r => Some r
  | None =>
      match s with
      | String a s' => if in_cls c a then lazy_loop s' else None
      | EmptyString => None
      end
  end.

(** [c*]: as many characters as possible, giving back one at a time. *)
Fixpoint greedy_loop (s : string) : option res :=
  match s with
  | String a s' =>
      if in_cls c a then
        match greedy_loop s' with
        | Some r => Some r
        | None => k s
        end
      else k s
  | EmptyString => k s
  end.
End Loops.

(** [run n r s caps k]: match [r] at the front of [s], the rest of a subject
    of length [n], then continue with [k]; backtracking is the [None] case. *)
Fixpoint run (n : nat) (r : re) (s : string) (caps : captures)
         (k : string -> captures -> option res) : option res :=
  match r with
  | Lit l =>
      match strip_prefix l s with
      | Some s' => k s' caps
      | None => None
      end
  | One c =>
      match s with
      | String a s' => if in_cls c a then k s' caps else None
      | EmptyString => None
      end
  | Lazy c => lazy_loop c (fun t => k t caps) s
  | Plus c =>
      match s with
      | String a s' =>
          if in_cls c a then greedy_loop c (fun t => k t caps) s' else None
      | EmptyString => None
      end
  | Seq r1 r2 => run n r1 s caps (fun t cs => run n r2 t cs k)
  | Alt r1 r2 =>
      match run n r1 s caps k with
      | Some x => Some x
      | None => run n r2 s caps k
      end
  | Grp i r1 =>
      run n r1 s caps
          (fun t cs => k t ((i, take (String.length s - String.length t) s) :: cs))
  | Ahead r1 =>
      match run n r1 s caps (fun t cs => Some (t, cs)) with
      | Some (_, cs) => k s cs
      | None => None
      end
  | Eos =>
      match s with
      | EmptyString => k s caps
      | String _ _ => None
      end
  | Bos => if Nat.eqb (String.length s) n then k s caps else None
  end.

Definition match_at (n : nat) (r : re) (s : string) : option res :=
  run n r s [] (fun t cs => Some (t, cs)).

(** A match object: the text before the match ([string[:start]]), the
    matched text ([group(0)]), the text after it ([string[end:]]) and the
    groups. *)
Record match_obj := MatchObj {
  m_pre : string;
  m_text : string;
  m_post : string;
  m_groups : captures
}.

Fixpoint lookup (i : nat) (cs : captures) : option string :=
  match cs with
  | [] => None
  | (j, v) :: cs' => if Nat.eqb i j then Some v else lookup i cs'
  end.

(** [m.group(i)].  Every group of the program's patterns takes part in
    every match, so the value is always a string. *)
Definition group_of (text : string) (cs : captures) (i : nat) : string :=
match i with
| 0 => text
| _ => match lookup i cs with
       | Some v => v
       | None => EmptyString
       end
end.

Definition group (m : match_obj) (i : nat) : string :=
group_of (m_text m) (m_groups m) i.

(** The scan of [re.search]: [pre] is the part of the subject already passed. *)
Fixpoint search_from (n : nat) (r : re) (pre : string) (s : string)
  : option match_obj :=
  match match_at n r s with
  | Some (t, cs) =>
      Some (MatchObj pre (take (String.length s - String.length t) s) t cs)
  | None =>
      match s with
      | String a s' => search_from n r (pre ++ String a EmptyString) s'
      | EmptyString => None
      end
  end.

(** [re.search(r, s)] and [re.match(r, s)]. *)
Definition re_search (r : re) (s : string) : option match_obj :=
  search_from (String.length s) r EmptyString s.

Definition re_match (r : re) (s : string) : option match_obj :=
  match match_at (String.length s) r s with
  | Some (t, cs) =>
      Some (MatchObj EmptyString (take (String.length s - String.length t) s) t cs)
  | None => None
  end.

(** [pattern.groups]: the number of capturing groups. *)
Fixpoint ngroups (r : re) : nat :=
match r with
| Seq r1 r2 | Alt r1 r2 => ngroups r1 + ngroups r2
| Grp _ r1 => S (ngroups r1)
| Ahead r1 => ngroups r1
| _ => 0
end.

(** *** Replacement templates

    [re.sub] compiles a replacement string that contains a backslash before
    it looks for a match: [\1] and [\g<1>] are group references, [\n] and
    the like are control characters, a backslash before another ASCII letter
    is an error, and so is a reference to a group the pattern does not have.
    [None] stands for the exception raised ([re.error], or [IndexError] for
    an unknown group name). *)

Inductive titem := TChr (c : ascii) | TRef (i : nat).
Definition template := list titem.

(** The escapes of [re._parser.ESCAPES]. *)
Definition escape (c : ascii) : option ascii :=
match c with
| "a"%char => Some "007"%char
| "b"%char => Some "008"%char
| "f"%char => Some "012"%char
| "n"%char => Some "010"%char
| "r"%char => Some "013"%char
| "t"%char => Some "009"%char
| "v"%char => Some "011"%char
| "\"%char => Some "\"%char
| _ => None
end.

Fixpoint all_decimal (s : string) : bool :=
match s with
| EmptyString => true
| String c s' => is_decimal c && all_decimal s'
end.

Fixpoint int_of_digits (acc : nat) (s : string) : nat :=
match s with
| EmptyString => acc
| String c s' => int_of_digits (10 * acc + digit_value c) s'
end.

(** The group that the name of [\g<name>] denotes in a pattern with [ng]
    unnamed groups. *)
Definition group_index (ng : nat) (name : string) : option nat :=
match name with
| EmptyString => None
| _ => if all_decimal name && Nat.leb (int_of_digits 0 name) ng
       then Some (int_of_digits 0 name) else None
end.

Definition add_group (ng i : nat) (rest : option template) : option template :=
if Nat.leb i ng then option_map (cons (TRef i)) rest else None.

Definition add_chr (c : ascii) (rest : option template) : option template :=
option_map (cons (TChr c)) rest.

Definition chr (n : nat) : ascii := ascii_of_nat n.

Inductive pstate := PText | PName (name : string).

(** [re._parser.parse_template]. *)
Fixpoint parse_template (ng : nat) (st : pstate) (s : string) : option template :=
match st with
| PName name =>
    match s with
    | EmptyString => None
    | String c s' =>
        if Ascii.eqb c ">" then
          match group_index ng name with
          | Some i => option_map (cons (TRef i)) (parse_template ng PText s')
          | None => None
          end
        else parse_template ng (PName (name ++ String c EmptyString)) s'
    end
| PText =>
    match s with
    | EmptyString => Some []
    | String "\" EmptyString => None
    | String "\" (String c rest) =>
        if Ascii.eqb c "g" then
          match rest with
          | String "<" rest' => parse_template ng (PName EmptyString) rest'
          | _ => None
          end
        else if Ascii.eqb c "0" then
          match rest with
          | String d1 rest1 =>
              if is_octal d1 then
                match rest1 with
                | String d2 rest2 =>
                    if is_octal d2
                    then add_chr (chr (8 * digit_value d1 + digit_value d2))
                                 (parse_template ng PText rest2)
                    else add_chr (chr (digit_value d1)) (parse_template ng PText rest1)
                | EmptyString =>
                    add_chr (chr (digit_value d1)) (parse_template ng PText rest1)
                end
              else add_chr (chr 0) (parse_template ng PText rest)
          | EmptyString => add_chr (chr 0) (parse_template ng PText rest)
          end
        else if is_decimal c then
          match rest with
          | String d1 rest1 =>
              if is_decimal d1 then
                match rest1 with
                | String d2 rest2 =>
                    if is_octal c && is_octal d1 && is_octal d2 then
                      let v := 64 * digit_value c + 8 * digit_value d1 + digit_value d2 in
                      if Nat.leb v 255 then add_chr (chr v) (parse_template ng PText rest2)
                      else None
                    else add_group ng (10 * digit_value c + digit_value d1)
                                   (parse_template ng PText rest1)
                | EmptyString =>
                    add_group ng (10 * digit_value c + digit_value d1)
                              (parse_template ng PText rest1)
                end
              else add_group ng (digit_value c) (parse_template ng PText rest)
          | EmptyString => add_group ng (digit_value c) (parse_template ng PText rest)
          end
        else
          match escape c with
          | Some e => add_chr e (parse_template ng PText rest)
          | None =>
              if is_ascii_letter c then None
              else add_chr "\" (add_chr c (parse_template ng PText rest))
          end
    | String c rest => add_chr c (parse_template ng PText rest)
    end
end.

Fixpoint expand (tpl : template) (text : string) (cs : captures) : string :=
match tpl with
| [] => EmptyString
| TChr c :: tpl' => String c (expand tpl' text cs)
| TRef i :: tpl' => group_of text cs i ++ expand tpl' text cs
end.

(** *** [re.sub]

    The subject is scanned from the left; where the pattern matches, the
    expansion of the template is emitted and the scan goes on after the
    match ([skip] counts the matched characters still to pass); elsewhere the
    character is copied.  There is no limit on the number of replacements:
    the program never passes [count].  No pattern the program gives to
    [re.sub] matches the empty string; for one that did, the expansion is
    emitted and the next character copied. *)
Section Sub.
Variable n : nat.
Variable r : re.
Variable tpl : template.

Fixpoint sub_loop (skip : nat) (s : string) : string :=
match skip with
| S skip' =>
    match s with
    | String _ s' => sub_loop skip' s'
    | EmptyString => EmptyString
    end
| 0 =>
    match match_at n r s with
    | Some (t, cs) =>
        let len := String.length s - String.length t in
        expand tpl (take len s) cs ++
        match s with
        | String a s' =>
            match len with
            | 0 => String a (sub_loop 0 s')
            | S l => sub_loop l s'
            end
        | EmptyString => EmptyString
        end
    | None =>
        match s with
        | String a s' => String a (sub_loop 0 s')
        | EmptyString => EmptyString
        end
    end
end.
End Sub.

(** [re.sub(r, repl, s)]; [None] when the template does not compile. *)
Definition re_sub (r : re) (repl : string) (s : string) : option string :=
match parse_template (ngroups r) PText repl with
| Some tpl => Some (sub_loop (String.length s) r tpl 0 s)
| None => None
end.

End Re.

(** ** The program: class [RecursiveDevKit] *)

Module DevKit.
Import Re.

(** *** Files, console and outcomes *)

(** The three documents of a project directory.  A field is the text of
    the file at [self.context_file], [self.state_file] or [self.prompt_file],
    [None] when [os.path.exists] is false for it; [project_dir] tells whether
    the directory exists. *)
Record files := Files {
  context_file : option string;
  state_file : option string;
  prompt_file : option string;
  project_dir : bool
}.

Inductive doc := ContextDoc | StateDoc | PromptDoc.

(** What the operations print. *)
Inductive message :=
| InitCanceled                         (* Initialization canceled. *)
| Initialized (project_name : string)  (* Initialized ... / Created: ... (3 lines) *)
| ContextOrStateNotFound               (* Error: Context or state file not found. Run 'init' first. *)
| UpdatedPrompt (current_task : string) (* Updated prompt for task: ... / Prompt saved to ... *)
| StateNotFound                        (* Error: State file not found. Run 'init' first. *)
| UpdatedState (reset : bool) (task_completed next_task : option string)
| ContextNotFound                      (* Error: Context file not found. Run 'init' first. *)
| UpdatedPhase (new_phase progress : option string)
| Help.                                (* parser.print_help() *)

Inductive event :=
| Ask                                  (* input("Framework files already exist. Overwrite? (y/n): ") *)
| Print (m : message)
| Makedirs                             (* os.makedirs(self.project_dir, exist_ok=True) *)
| Write (d : doc) (text : string).     (* open(path, "w"); f.write(text) *)

Inductive exn :=
| EOFError            (* input() at end of input *)
| UnboundLocalError   (* a local variable read before assignment *)
| ReError.            (* the replacement template of re.sub does not compile *)

(** An operation ends by returning ([raised = None]) or by an exception; it
    leaves the files [fs] and has produced the events [trace], oldest first. *)
Record outcome := Outcome {
  raised : option exn;
  fs : files;
  trace : list event
}.

Definition exists_ (f : option string) : bool :=
match f with Some _ => true | None => false end.

Definition write (d : doc) (text : string) (f : files) : files :=
match d with
| ContextDoc => Files (Some text) (state_file f) (prompt_file f) (project_dir f)
| StateDoc => Files (context_file f) (Some text) (prompt_file f) (project_dir f)
| PromptDoc => Files (context_file f) (state_file f) (Some text) (project_dir f)
end.

Definition makedirs (f : files) : files :=
Files (context_file f) (state_file f) (prompt_file f) true.

(** *** [init] *)

Definition context_template (description phases initial_phase : string) : string :=
"# Project Context

## Definition
" ++ description ++ "

## Current Phase: 1/" ++ phases ++ " - " ++ initial_phase ++ "
Progress: 0% complete

## Architecture
- Core system: Initial implementation pending
  - Base components: To be determined
- Infrastructure: Initial setup pending

## Dependencies
- None yet

## Development Principles
- Modularity
- Testability
- Maintainability
- Clear interfaces
- Documentation

## Technical Requirements
- Reliable operation
- Good performance
- Proper error handling
".

Definition state_template : string :=
"# Development State

## High Priority
- CURRENT TASK: Initialize project structure
- COMPLETION CRITERIA: Repository structure and base files created
- WORKING FILES: Initial repository setup
- INTEGRATION POINTS: None yet

## Completed
- Framework initialization

## Next Tasks
1. Define initial architecture
   - Files: architecture documents, diagrams
   - Integration: Overall system design
2. Set up core components
   - Files: base implementation files
   - Integration: Component interfaces

## Challenges
- None yet

## Decisions
- Using RecursiveDevKit framework for development
  - Rationale: Structured approach to AI-assisted development
  - Alternatives: Ad-hoc prompting, traditional development
".

Definition init_prompt_template
  (project_name description phases initial_phase : string) : string :=
"Continue developing " ++ project_name ++ " focusing on the following task:

## Current Focus
- Task: Initialize project structure
- Files: Initial repository setup
- Integration points: None yet
- Completion criteria: Repository structure and base files created

## Project Context
- Project: " ++ project_name ++ " - " ++ description ++ "
- Current phase: 1/" ++ phases ++ " - " ++ initial_phase ++ "
- Progress: 0% complete
- Key architecture: Initial implementation pending
- Development principles: Modularity, Testability, Maintainability

## Current State
- Completed: Framework initialization
- Next tasks: Define initial architecture, Set up core components
- Challenges: None yet
- Recent decisions: Using RecursiveDevKit framework for development

## Implementation Requirements
1. The implementation should follow the project's development principles
2. Code should be properly documented with comments
3. Handle edge cases and potential errors
4. Integrate well with existing components
5. Be testable and maintainable

Please provide:
1. Implementation code for the current task including:
   - File paths and full implementation code
   - Any necessary changes to dependent files
   - Clear comments explaining key functionality

2. Updated task status for development-state.md:
   - Brief description of implementation approach
   - Key implementation details to document
   - Next logical task to tackle

3. Any architecture updates needed

4. Verification approach:
   - How to verify the implementation works correctly
   - Edge cases to test
   - Integration test approach if applicable
".

(** The writing half of [init], after the confirmation gate. *)
Definition init_write (f : files) (asked : list event)
  (project_name description phases initial_phase : string) : outcome :=
let context := context_template description phases initial_phase in
let state := state_template in
let prompt := init_prompt_template project_name description phases initial_phase in
Outcome None
  (write PromptDoc prompt (write StateDoc state (write ContextDoc context (makedirs f))))
  (asked ++ [Makedirs; Write ContextDoc context; Write StateDoc state;
             Write PromptDoc prompt; Print (Initialized project_name)])%list.

(** [init(project_name, description, phases, initial_phase)]; [answer] is the
    line that [input] returns if it is called, [None] at end of input. *)
Definition init (f : files) (answer : option string)
  (project_name description phases initial_phase : string) : outcome :=
if exists_ (context_file f) || exists_ (state_file f) || exists_ (prompt_file f) then
  match answer with
  | None => Outcome (Some EOFError) f [Ask]
  | Some confirm =>
      if negb (String.eqb (lower confirm) "y")
      then Outcome None f [Ask; Print InitCanceled]
      else init_write f [Ask] project_name description phases initial_phase
  end
else init_write f [] project_name description phases initial_phase.

(** *** [update_prompt] *)

(** [## <heading>\n(.*?)(?=\n##|\Z)] with [re.DOTALL]. *)
Definition section_re (heading : string) : re :=
Seq (Lit ("## " ++ heading ++ LF))
    (Seq (Grp 1 (Lazy CAny)) (Ahead (Alt (Lit (LF ++ "##")) Eos))).

(** [## Current Phase: (.*?)\nProgress: (.*?)%] with [re.DOTALL]. *)
Definition phase_re : re :=
Seq (Lit "## Current Phase: ")
    (Seq (Grp 1 (Lazy CAny))
         (Seq (Lit (LF ++ "Progress: ")) (Seq (Grp 2 (Lazy CAny)) (Lit "%")))).

(** [- <key>: (.*?)(?=\n|-|\Z)] with [re.DOTALL]. *)
Definition keyed_re (key : string) : re :=
Seq (Lit ("- " ++ key ++ ": "))
    (Seq (Grp 1 (Lazy CAny)) (Ahead (Alt (Lit LF) (Alt (Lit "-") Eos)))).

(** [^\d+\.\s]. *)
Definition numbered_re : re :=
Seq Bos (Seq (Plus CDigit) (Seq (Lit ".") (One CSpace))).

Definition definition_re := section_re "Definition".
Definition arch_re := section_re "Architecture".
Definition principles_re := section_re "Development Principles".
Definition completed_re := section_re "Completed".
Definition next_re := section_re "Next Tasks".
Definition challenge_re := section_re "Challenges".
Definition decision_re := section_re "Decisions".
Definition task_re := keyed_re "CURRENT TASK".
Definition criteria_re := keyed_re "COMPLETION CRITERIA".
Definition files_re := keyed_re "WORKING FILES".
Definition integration_re := keyed_re "INTEGRATION POINTS".

(** The lines kept by [for line in body.strip().split("\n"):
    if line.startswith("- "):]. *)
Definition bullet_lines (body : string) : list string :=
filter (startswith "- ") (split "010" (strip body)).

(** [line[2:].strip()] of each, and [line[2:].split(":")[0].strip()] of each. *)
Definition bullets (body : string) : list string :=
map (fun line => strip (drop 2 line)) (bullet_lines body).

Definition bullet_names (body : string) : list string :=
map (fun line => strip (split_head ":" (drop 2 line))) (bullet_lines body).

Definition project_info (context : string) : string :=
match re_search definition_re context with
| Some definition_match => "Project" ++ " - " ++ strip (group definition_match 1)
| None => "Project"
end.

Definition phase_match (context : string) : option match_obj :=
re_search phase_re context.

Definition phase_info (context : string) : string :=
match phase_match context with
| Some m => strip (group m 1)
| None => "Current phase"
end.

(** [progress] is assigned only under [if phase_match:]; [None] is the
    unbound variable. *)
Definition progress (context : string) : option string :=
match phase_match context with
| Some m => Some (strip (group m 2))
| None => None
end.

Definition arch_info (context : string) : string :=
match re_search arch_re context with
| Some arch_match => join ", " (bullets (group arch_match 1))
| None => "Initial architecture"
end.

Definition principles_info (context : string) : string :=
match re_search principles_re context with
| Some principles_match => join ", " (bullet_names (group principles_match 1))
| None => "Modularity, Maintainability"
end.

(** The value of a keyed line as the program reads it, or the default. *)
Definition keyed_value (r : re) (default state : string) : string :=
match re_search r state with
| Some m => strip (group m 1)
| None => default
end.

Definition current_task (state : string) (custom_focus : option string) : string :=
match custom_focus with
| Some (String a v) => String a v
| _ => keyed_value task_re "implementation" state
end.

Definition completion_criteria (state : string) : string :=
keyed_value criteria_re "Task complete" state.

Definition working_files (state : string) : string :=
keyed_value files_re "relevant files" state.

Definition integration_points (state : string) : string :=
keyed_value integration_re "related components" state.

Definition completed_tasks (state : string) : list string :=
match re_search completed_re state with
| Some completed_section => bullets (group completed_section 1)
| None => []
end.

Definition completed_info (state : string) : string :=
join ", " (last_n 3 (completed_tasks state)).

(** [if re.match(r"^\d+\.\s", line):
       task_name = re.sub(r"^\d+\.\s", "", line).strip()]. *)
Definition next_task_of_line (line : string) : list string :=
match re_match numbered_re line with
| Some _ =>
    match re_sub numbered_re "" line with
    | Some task_name => [strip task_name]
    | None => []
    end
| None => []
end.

Definition next_tasks (state : string) : list string :=
match re_search next_re state with
| Some next_section =>
    flat_map next_task_of_line (split "010" (strip (group next_section 1)))
| None => []
end.

Definition next_info (state : string) : string :=
join ", " (first_n 3 (next_tasks state)).

Definition challenges (state : string) : list string :=
match re_search challenge_re state with
| Some challenge_section =>
    if negb (contains "None yet" (group challenge_section 1))
    then bullet_names (group challenge_section 1)
    else []
| None => []
end.

Definition challenge_info (state : string) : string :=
match challenges state with
| [] => "None identified"
| l => join ", " l
end.

Definition decisions (state : string) : list string :=
match re_search decision_re state with
| Some decision_section => bullet_names (group decision_section 1)
| None => []
end.

Definition decision_info (state : string) : string :=
match decisions state with
| [] => "No recent decisions"
| l => join ", " (last_n 2 l)
end.

(** The f-string of [update_prompt]. *)
Definition prompt_template
  (current_task working_files integration_points completion_criteria
   project_info phase_info progress arch_info principles_info
   completed_info next_info challenge_info decision_info : string) : string :=
"Continue developing the project focusing on the following task:

## Current Focus
- Task: " ++ current_task ++ "
- Files: " ++ working_files ++ "
- Integration points: " ++ integration_points ++ "
- Completion criteria: " ++ completion_criteria ++ "

## Project Context
- Project: " ++ project_info ++ "
- Current phase: " ++ phase_info ++ "
- Progress: " ++ progress ++ "% complete
- Key architecture: " ++ arch_info ++ "
- Development principles: " ++ principles_info ++ "

## Current State
- Completed: " ++ completed_info ++ "
- Next tasks: " ++ next_info ++ "
- Challenges: " ++ challenge_info ++ "
- Recent decisions: " ++ decision_info ++ "

## Implementation Requirements
1. The implementation should follow the project's development principles
2. Code should be properly documented with comments
3. Handle edge cases and potential errors
4. Integrate well with existing components
5. Be testable and maintainable

Please provide:
1. Implementation code for the current task including:
   - File paths and full implementation code
   - Any necessary changes to dependent files
   - Clear comments explaining key functionality

2. Updated task status for development-state.md:
   - Brief description of implementation approach
   - Key implementation details to document
   - Next logical task to tackle

3. Any architecture updates needed

4. Verification approach:
   - How to verify the implementation works correctly
   - Edge cases to test
   - Integration test approach if applicable
".

(** The text [update_prompt] builds from the two documents; [None] when the
    f-string reads the unbound [progress]. *)
Definition prompt_text (context state : string) (custom_focus : option string)
  : option string :=
match progress context with
| Some p =>
    Some (prompt_template
            (current_task state custom_focus) (working_files state)
            (integration_points state) (completion_criteria state)
            (project_info context) (phase_info context) p
            (arch_info context) (principles_info context)
            (completed_info state) (next_info state)
            (challenge_info state) (decision_info state))
| None => None
end.

Definition update_prompt (f : files) (custom_focus : option string) : outcome :=
match context_file f, state_file f with
| Some context, Some state =>
    match prompt_text context state custom_focus with
    | Some prompt =>
        Outcome None (write PromptDoc prompt f)
          [Write PromptDoc prompt;
           Print (UpdatedPrompt (current_task state custom_focus))]
    | None => Outcome (Some UnboundLocalError) f []
    end
| _, _ => Outcome None f [Print ContextOrStateNotFound]
end.

(** *** [update_state] *)

Definition reset_template : string :=
"# Development State

## High Priority
- CURRENT TASK: Initialize phase
- COMPLETION CRITERIA: Phase initialization complete
- WORKING FILES: Initial phase files
- INTEGRATION POINTS: None yet

## Completed
- Previous phase completion

## Next Tasks
1. First task in new phase
   - Files: To be determined
   - Integration: To be determined

## Challenges
- None yet

## Decisions
- Phase transition
  - Rationale: Previous phase completed
  - Alternatives: Continue previous phase
".

(** [(## Completed\n)]. *)
Definition completed_pattern : re := Grp 1 (Lit ("## Completed" ++ LF)).

(** [- <key>: .*?\n], [## Current Phase: .*?\n] and [Progress: .*?%]. *)
Definition keyed_line_re (key : string) : re :=
Seq (Lit ("- " ++ key ++ ": ")) (Seq (Lazy CLine) (Lit LF)).

Definition phase_line_re : re :=
Seq (Lit "## Current Phase: ") (Seq (Lazy CLine) (Lit LF)).

Definition progress_re : re :=
Seq (Lit "Progress: ") (Seq (Lazy CLine) (Lit "%")).

(** [if arg: text = step(arg, text)], failing when the step raises. *)
Definition when (arg : option string) (step : string -> string -> option string)
  (text : string) : option string :=
match arg with
| Some (String a v) => step (String a v) text
| _ => Some text
end.

Definition bind (o : option string) (k : string -> option string) : option string :=
match o with
| Some x => k x
| None => None
end.

(** [re.sub(r"- KEY: .*?\n", f"- KEY: {value}\n", text)]. *)
Definition replace_keyed (key value text : string) : option string :=
re_sub (keyed_line_re key) ("- " ++ key ++ ": " ++ value ++ LF) text.

(** The block under [if task_completed:]. *)
Definition add_completed (task_completed state_content : string) : option string :=
let current_task := keyed_value task_re "implementation" state_content in
re_sub completed_pattern
       ("\1- " ++ current_task ++ ": " ++ task_completed ++ LF) state_content.

(** The block under [if next_task:]. *)
Definition set_next (criteria files integration : option string)
  (next_task state_content : string) : option string :=
bind (replace_keyed "CURRENT TASK" next_task state_content) (fun c1 =>
bind (when criteria (replace_keyed "COMPLETION CRITERIA") c1) (fun c2 =>
bind (when files (replace_keyed "WORKING FILES") c2) (fun c3 =>
when integration (replace_keyed "INTEGRATION POINTS") c3))).

(** The text [update_state] writes for the text it read; [None] when a
    [re.sub] raises. *)
Definition update_state_text (state_content : string)
  (task_completed next_task criteria files integration : option string)
  (reset : bool) : option string :=
let c0 := if reset then reset_template else state_content in
bind (when task_completed add_completed c0) (fun c1 =>
when next_task (set_next criteria files integration) c1).

Definition update_state (f : files)
  (task_completed next_task criteria files integration : option string)
  (reset : bool) : outcome :=
match state_file f with
| None => Outcome None f [Print StateNotFound]
| Some state_content =>
    match update_state_text state_content task_completed next_task
                            criteria files integration reset with
    | Some text =>
        Outcome None (write StateDoc text f)
          [Write StateDoc text;
           Print (UpdatedState reset
                    (if truthy task_completed then task_completed else None)
                    (if truthy next_task then next_task else None))]
    | None => Outcome (Some ReError) f []
    end
end.

(** *** [update_phase] *)

Definition set_phase (new_phase context_content : string) : option string :=
re_sub phase_line_re ("## Current Phase: " ++ new_phase ++ LF) context_content.

Definition set_progress (progress context_content : string) : option string :=
re_sub progress_re ("Progress: " ++ progress ++ "%") context_content.

Definition update_phase_text (context_content : string)
  (new_phase progress : option string) : option string :=
bind (when new_phase set_phase context_content) (fun c1 =>
when progress set_progress c1).

Definition update_phase (f : files) (new_phase progress : option string) : outcome :=
match context_file f with
| None => Outcome None f [Print ContextNotFound]
| Some context_content =>
    match update_phase_text context_content new_phase progress with
    | Some text =>
        Outcome None (write ContextDoc text f)
          [Write ContextDoc text;
           Print (UpdatedPhase new_phase
                    (if truthy progress then progress else None))]
    | None => Outcome (Some ReError) f []
    end
end.

(** *** [main] *)

(** The parsed command line. *)
Inductive command :=
| CmdInit (project_name description phases initial_phase : string)
| CmdPrompt (focus : option string)
| CmdState (completed next criteria files integration : option string) (reset : bool)
| CmdPhase (new progress : option string)
| CmdHelp.

(** The dispatch of [main]; [stdin] is the line [input] would read. *)
Definition main (f : files) (stdin : option string) (args : command) : outcome :=
match args with
| CmdInit project_name description phases initial_phase =>
    init f stdin project_name description phases initial_phase
| CmdPrompt focus => update_prompt f focus
| CmdState completed next criteria files integration reset =>
    update_state f completed next criteria files integration reset
| CmdPhase new progress => update_phase f new progress
| CmdHelp => Outcome None f [Print Help]
end.

End DevKit.
Import Re DevKit.

(** * Properties *)

(** ** Vocabulary *)

(** [t] is what is left of [s] after some prefix. *)
Definition rest_of (t s : string) : Prop := exists x, s = x ++ t.

(** Patterns without [^]: their matches do not depend on where in the
    subject they are tried. *)
Fixpoint bos_free (r : re) : bool :=
match r with
| Seq r1 r2 | Alt r1 r2 => bos_free r1 && bos_free r2
| Grp _ r1 | Ahead r1 => bos_free r1
| Bos => false
| _ => true
end.

(** A replacement string without a backslash stands for itself. *)
Definition literal (s : string) : template := map TChr (list_ascii_of_string s).

(** The document an operation requires is absent: context or state for
    [prompt], state for [state], context for [phase]. *)
Definition required_missing (args : command) (f : files) : bool :=
match args with
| CmdPrompt _ => negb (exists_ (context_file f)) || negb (exists_ (state_file f))
| CmdState _ _ _ _ _ _ => negb (exists_ (state_file f))
| CmdPhase _ _ => negb (exists_ (context_file f))
| _ => false
end.

Definition missing_warning (args : command) : message :=
match args with
| CmdState _ _ _ _ _ _ => StateNotFound
| CmdPhase _ _ => ContextNotFound
| _ => ContextOrStateNotFound
end.

Definition is_write (e : event) : bool :=
match e with Write _ _ => true | _ => false end.

(** The claim as the specification words it: any answer other than [y]
    declines. *)
Definition spec_declines (answer : string) : Prop := answer <> "y".

(** The claim as the specification words it: under [reset] the text written
    is the reset template, whatever the other arguments. *)
Definition spec_reset_text
  (task_completed next_task criteria files integration : option string) : option string :=
Some reset_template.

(** The six fields that [update_state] and [update_phase] rewrite. *)
Inductive field :=
| CurrentTask | CompletionCriteria | WorkingFiles | IntegrationPoints
| CurrentPhase | ProgressValue.

Definition field_re (f : field) : re :=
match f with
| CurrentTask => keyed_line_re "CURRENT TASK"
| CompletionCriteria => keyed_line_re "COMPLETION CRITERIA"
| WorkingFiles => keyed_line_re "WORKING FILES"
| IntegrationPoints => keyed_line_re "INTEGRATION POINTS"
| CurrentPhase => phase_line_re
| ProgressValue => progress_re
end.

Definition replace_field (f : field) (value text : string) : option string :=
match f with
| CurrentTask => replace_keyed "CURRENT TASK" value text
| CompletionCriteria => replace_keyed "COMPLETION CRITERIA" value text
| WorkingFiles => replace_keyed "WORKING FILES" value text
| IntegrationPoints => replace_keyed "INTEGRATION POINTS" value text
| CurrentPhase => set_phase value text
| ProgressValue => set_progress value text
end.

(** The text that takes the place of a match. *)
Definition field_line (f : field) (value : string) : string :=
match f with
| CurrentTask => "- CURRENT TASK: " ++ value ++ LF
| CompletionCriteria => "- COMPLETION CRITERIA: " ++ value ++ LF
| WorkingFiles => "- WORKING FILES: " ++ value ++ LF
| IntegrationPoints => "- INTEGRATION POINTS: " ++ value ++ LF
| CurrentPhase => "## Current Phase: " ++ value ++ LF
| ProgressValue => "Progress: " ++ value ++ "%"
end.

(** The claim as the specification words it: only the first occurrence is
    rewritten, the rest of the document is left as it is. *)
Definition spec_replace_first (f : field) (value text : string) : option string :=
match re_search (field_re f) text with
| None => Some text
| Some m => Some (m_pre m ++ field_line f value ++ m_post m)
end.

(** The text after the first occurrence of [sub] in [s]. *)
Fixpoint after (sub s : string) : option string :=
match strip_prefix sub s with
| Some t => Some t
| None =>
    match s with
    | String _ s' => after sub s'
    | EmptyString => None
    end
end.

(** The context document has a progress line the program can read: after
    the first phase header there is a line that starts with [Progress: ], and
    a percent sign after that. *)
Definition progress_follows (context : string) : bool :=
match after "## Current Phase: " context with
| Some r1 =>
    match after (LF ++ "Progress: ") r1 with
    | Some r2 => has_char "%" r2
    | None => false
    end
| None => false
end.

(** Where the value of a keyed line ends: at a line feed, at a hyphen or at
    the end of the document. *)
Definition stops (t : string) : bool :=
match t with
| EmptyString => true
| String c _ => Ascii.eqb c "010" || Ascii.eqb c "-"
end.

(** Where the body of a section ends: before a line feed followed by [##],
    or at the end of the document. *)
Definition heading_stop (t : string) : bool :=
match t with
| EmptyString => true
| _ => match strip_prefix (LF ++ "##") t with
       | Some _ => true
       | None => false
       end
end.

(** The body of a section, given the text after its heading line, and the
    text that follows the body. *)
Fixpoint section_body (s : string) : string :=
if heading_stop s then EmptyString
else match s with
     | String c s' => String c (section_body s')
     | EmptyString => EmptyString
     end.

Fixpoint section_tail (s : string) : string :=
if heading_stop s then s
else match s with
     | String c s' => section_tail s'
     | EmptyString => EmptyString
     end.

(** The value of a keyed line as the specification reads it: the text after
    the key prefix up to the end of the line. *)
Definition line_value (key state : string) : option string :=
option_map (split_head "010") (after ("- " ++ key ++ ": ") state).

(** The claim as the specification words it: the Completed section after
    recording [task_completed] under the current task [T]. *)
Definition spec_completed_section (T task_completed : string) (entries : list string)
  : list string :=
(T ++ ": " ++ task_completed) :: entries.

(** The claim as the specification words it: the document has a line of the
    form [Progress: N%]. *)
Definition has_progress_line (context : string) : bool :=
existsb (fun line => startswith "Progress: " line && has_char "%" (drop 10 line))
        (split "010" context).

(** The document a command may write, and the content of a document. *)
Definition target (args : command) : option doc :=
match args with
| CmdPrompt _ => Some PromptDoc
| CmdState _ _ _ _ _ _ => Some StateDoc
| CmdPhase _ _ => Some ContextDoc
| _ => None
end.

Definition file_of (d : doc) (f : files) : option string :=
match d with
| ContextDoc => context_file f
| StateDoc => state_file f
| PromptDoc => prompt_file f
end.

Definition is_init (args : command) : bool :=
match args with
| CmdInit _ _ _ _ => true
| _ => false
end.

Definition doc_eqb (d1 d2 : doc) : bool :=
match d1, d2 with
| ContextDoc, ContextDoc | StateDoc, StateDoc | PromptDoc, PromptDoc => true
| _, _ => false
end.

(** The events of a trace that touch the file system, other than a write
    to [d]. *)
Definition touches_other (d : option doc) (e : event) : bool :=
match e with
| Makedirs => true
| Write d' _ => match d with
                | Some d0 => negb (doc_eqb d0 d')
                | None => true
                end
| _ => false
end.

(** Some framework file is there: the test that opens the confirmation of
    [init]. *)
Definition any_exists (f : files) : bool :=
exists_ (context_file f) || exists_ (state_file f) || exists_ (prompt_file f).

Definition is_ask (e : event) : bool :=
match e with Ask => true | _ => false end.


(** The literal text a field pattern starts with and the character that
    ends its match. *)
Definition field_prefix (f : field) : string :=
match f with
| CurrentTask => "- CURRENT TASK: "
| CompletionCriteria => "- COMPLETION CRITERIA: "
| WorkingFiles => "- WORKING FILES: "
| IntegrationPoints => "- INTEGRATION POINTS: "
| CurrentPhase => "## Current Phase: "
| ProgressValue => "Progress: "
end.

Definition field_stop (f : field) : ascii :=
match f with
| ProgressValue => "%"%char
| _ => "010"%char
end.

(** The field pattern has something to match: its prefix occurs and its
    closing character comes somewhere after the first occurrence. *)
Definition field_can_match (f : field) (text : string) : bool :=
match after (field_prefix f) text with
| Some r => has_char (field_stop f) r
| None => false
end.





(** The body that the section pattern of [update_prompt] captures for a
    heading, if the heading line is found. *)
Definition section_text (heading doc : string) : option string :=
option_map (fun m => group m 1) (re_search (section_re heading) doc).

(** The heading line [## <heading>] with its line feed. *)
Definition heading_line (heading : string) : string := "## " ++ heading ++ LF.

(** The first occurrence of [p] in [pre ++ p ++ ...] is the one after
    [pre]. *)
Definition first_occurrence (p pre : string) : bool :=
match after p (pre ++ p) with
| Some EmptyString => true
| _ => false
end.

(** The first heading line of [doc = pre ++ heading_line h ++ ...] is the one
    after [pre]. *)
Definition first_heading (heading pre : string) : bool :=
first_occurrence (heading_line heading) pre.



(** ** The model on small inputs

    Values that CPython gives for the same calls. *)

Example strip_example : strip ("  a b " ++ String "009" LF) = "a b".
Proof. reflexivity. Qed.

Example split_example : split "010" ("a" ++ LF ++ "b" ++ LF) = ["a"; "b"; ""].
Proof. reflexivity. Qed.

Example split_head_example : split_head ":" "k: v: w" = "k".
Proof. reflexivity. Qed.

Example numbered_examples :
  map next_task_of_line ["12. Title"; "1.Title"; "x 1. y"; "1. 2. z"]
  = [["Title"]; []; []; ["2. z"]].
Proof. vm_compute. reflexivity. Qed.

(** The replacement string is a template: [\n] is a line feed, [\\] a
    backslash, [\g<0>] the whole match, [\101] the character [A]; [\1] (the
    pattern has no group) and [\q] raise; a backslash before a character
    that is neither a letter nor a digit stays. *)
Example template_examples :
  let doc := "- CURRENT TASK: old" ++ LF ++ "- WORKING FILES: f" ++ LF in
  map (fun v => replace_keyed "CURRENT TASK" v doc)
      ["new"; "a\nb"; "a\\b"; "a\.b"; "a\1b"; "a\qb"; "a\g<0>b"; "a\g<x>b"; "a\101b"; "tail\"]
  = [Some ("- CURRENT TASK: new" ++ LF ++ "- WORKING FILES: f" ++ LF);
     Some ("- CURRENT TASK: a" ++ LF ++ "b" ++ LF ++ "- WORKING FILES: f" ++ LF);
     Some ("- CURRENT TASK: a\b" ++ LF ++ "- WORKING FILES: f" ++ LF);
     Some ("- CURRENT TASK: a\.b" ++ LF ++ "- WORKING FILES: f" ++ LF);
     None;
     None;
     Some ("- CURRENT TASK: a- CURRENT TASK: old" ++ LF ++ "b" ++ LF
           ++ "- WORKING FILES: f" ++ LF);
     None;
     Some ("- CURRENT TASK: aAb" ++ LF ++ "- WORKING FILES: f" ++ LF);
     Some ("- CURRENT TASK: tail\" ++ LF ++ "- WORKING FILES: f" ++ LF)].
Proof. vm_compute. reflexivity. Qed.

(** [init] on an empty directory, then [update_prompt]: the summaries of
    the prompt come from the two templates. *)
Example init_then_prompt :
  let f := fs (init (Files None None None false) None "P" "A tool" "3" "Start") in
  raised (update_prompt f None) = None
  /\ option_map (contains
       ("- Current phase: 1/3 - Start" ++ LF ++ "- Progress: 0% complete" ++ LF))
       (prompt_file (fs (update_prompt f None))) = Some true
  /\ option_map (contains
       ("- Completed: Framework initialization" ++ LF
        ++ "- Next tasks: Define initial architecture, Set up core components" ++ LF
        ++ "- Challenges: None identified" ++ LF))
       (prompt_file (fs (update_prompt f None))) = Some true.
Proof. vm_compute. repeat split; reflexivity. Qed.

(** ** Facts about strings *)

Section StringFacts.

Lemma append_empty_r (s : string) : s ++ "" = s.
Proof. induction s as [|a s IH]; simpl; [ | rewrite IH ]; reflexivity. Qed.

Lemma append_append (a b c : string) : (a ++ b) ++ c = a ++ b ++ c.
Proof. induction a as [|x a IH]; simpl; [ | rewrite IH ]; reflexivity. Qed.

Lemma length_append (a b : string) :
  String.length (a ++ b) = String.length a + String.length b.
Proof. induction a as [|x a IH]; simpl; [ | rewrite IH ]; reflexivity. Qed.

Lemma append_cancel_l (a b c : string) : a ++ b = a ++ c -> b = c.
Proof.
  induction a as [|x a IH]; simpl; intros H; [ exact H | ].
  injection H as H. auto.
Qed.

Lemma append_cancel_r (a b c : string) : a ++ c = b ++ c -> a = b.
Proof.
  revert b. induction a as [|x a IH]; intros [|y b] H; simpl in H.
  - reflexivity.
  - apply (f_equal String.length) in H. simpl in H. rewrite length_append in H. lia.
  - apply (f_equal String.length) in H. simpl in H. rewrite length_append in H. lia.
  - injection H as -> H. f_equal. auto.
Qed.

Lemma strip_prefix_some (p s t : string) :
  strip_prefix p s = Some t <-> s = p ++ t.
Proof.
  revert s. induction p as [|a p IH]; intros s; simpl.
  - split; intros H; congruence.
  - destruct s as [|b s].
    + split; intros H; discriminate H.
    + destruct (Ascii.eqb_spec a b) as [->|Hab].
      * rewrite IH. split; intros H; [ subst; reflexivity | ].
        injection H as H. exact H.
      * split; intros H; [ discriminate H | ]. injection H as H _. congruence.
Qed.

Lemma strip_prefix_append (p t : string) : strip_prefix p (p ++ t) = Some t.
Proof. apply strip_prefix_some. reflexivity. Qed.

Lemma take_append (x t : string) :
  take (String.length (x ++ t) - String.length t) (x ++ t) = x.
Proof.
  rewrite length_append.
  replace (String.length x + String.length t - String.length t)
    with (String.length x) by lia.
  induction x as [|a x IH]; simpl; [ | rewrite IH; reflexivity ].
  destruct t; reflexivity.
Qed.

Lemma has_char_append (c : ascii) (a b : string) :
  has_char c (a ++ b) = has_char c a || has_char c b.
Proof.
  induction a as [|x a IH]; simpl; [ reflexivity | ].
  rewrite IH. apply orb_assoc.
Qed.

Lemma has_char_lstrip (c : ascii) (s : string) :
  has_char c (lstrip s) = true -> has_char c s = true.
Proof.
  induction s as [|a s IH]; simpl; [ auto | ].
  destruct (is_space a); simpl; [ | auto ].
  intros H. rewrite (IH H). apply orb_true_r.
Qed.

Lemma has_char_rstrip (c : ascii) (s : string) :
  has_char c (rstrip s) = true -> has_char c s = true.
Proof.
  induction s as [|a s IH]; simpl; [ auto | ].
  destruct (rstrip s) as [|b r].
  - destruct (is_space a); simpl; [ discriminate | ].
    rewrite orb_false_r. intros ->. reflexivity.
  - simpl. intros H. apply orb_true_iff in H. destruct H as [H|H].
    + rewrite H. reflexivity.
    + rewrite IH; [ apply orb_true_r | exact H ].
Qed.

Lemma has_char_strip (c : ascii) (s : string) :
  has_char c s = false -> has_char c (strip s) = false.
Proof.
  intros H. destruct (has_char c (strip s)) eqn:E; [ | reflexivity ].
  apply has_char_rstrip, has_char_lstrip in E. congruence.
Qed.

End StringFacts.

(** ** Facts about the matcher *)

Section MatcherFacts.

Lemma rest_of_refl (s : string) : rest_of s s.
Proof. exists "". reflexivity. Qed.

Lemma rest_of_trans (a b c : string) : rest_of a b -> rest_of b c -> rest_of a c.
Proof.
  intros [x ->] [y ->]. exists (y ++ x). symmetry. apply append_append.
Qed.

Lemma rest_of_cons (a : ascii) (t s : string) : rest_of t s -> rest_of t (String a s).
Proof. intros [x ->]. exists (String a x). reflexivity. Qed.

Lemma rest_of_length (t s : string) : rest_of t s -> String.length t <= String.length s.
Proof. intros [x ->]. rewrite length_append. lia. Qed.

(** What a lazy loop returns is what its continuation returns after a run [x]
    of characters of the class; the continuation fails at every earlier
    stop. *)
Lemma lazy_loop_some (c : cls) (k : string -> option res) (s : string) (r : res) :
  lazy_loop c k s = Some r ->
  exists x t, s = x ++ t /\ k t = Some r
    /\ (forall x1 x2, x = x1 ++ x2 -> x2 <> "" -> k (x2 ++ t) = None).
Proof.
  induction s as [|a s IH]; simpl.
  - destruct (k "") eqn:E; intros H; [ | discriminate H ].
    injection H as ->. exists "", "". repeat split; auto.
    intros [|] [|] H; try discriminate H. congruence.
  - destruct (k (String a s)) eqn:E.
    + intros H. injection H as ->. exists "", (String a s). repeat split; auto.
      intros [|] [|] H; try discriminate H. congruence.
    + destruct (in_cls c a); intros H; [ | discriminate H ].
      destruct (IH H) as (x & t & -> & Hk & Hmin).
      exists (String a x), t. repeat split; auto.
      intros [|b x1] x2 Hx Hne.
      * simpl in Hx. subst x2. exact E.
      * simpl in Hx. injection Hx as _ Hx. eauto.
Qed.

Lemma lazy_loop_ext (c : cls) (k k' : string -> option res) (s : string) :
  (forall t, k t = k' t) -> lazy_loop c k s = lazy_loop c k' s.
Proof.
  intros H. induction s as [|a s IH]; simpl; rewrite H; [ reflexivity | ].
  rewrite IH. reflexivity.
Qed.

Lemma greedy_loop_ext (c : cls) (k k' : string -> option res) (s : string) :
  (forall t, k t = k' t) -> greedy_loop c k s = greedy_loop c k' s.
Proof.
  intros H. induction s as [|a s IH]; simpl; rewrite H; [ reflexivity | ].
  rewrite IH. reflexivity.
Qed.

Lemma lazy_loop_rest (c : cls) (k : string -> option res) (s : string) (r : res) :
  (forall t r, k t = Some r -> rest_of (fst r) t) ->
  lazy_loop c k s = Some r -> rest_of (fst r) s.
Proof.
  intros Hk H. apply lazy_loop_some in H. destruct H as (x & t & -> & H & _).
  apply rest_of_trans with t; [ eauto | exists x; reflexivity ].
Qed.

Lemma greedy_loop_rest (c : cls) (k : string -> option res) (s : string) (r : res) :
  (forall t r, k t = Some r -> rest_of (fst r) t) ->
  greedy_loop c k s = Some r -> rest_of (fst r) s.
Proof.
  intros Hk. induction s as [|a s IH]; simpl; [ apply Hk | ].
  destruct (in_cls c a); [ | apply Hk ].
  destruct (greedy_loop c k s) eqn:E.
  - intros H. injection H as <-. apply rest_of_cons. auto.
  - apply Hk.
Qed.

Lemma run_bos_free (n n' : nat) (r : re) :
  bos_free r = true ->
  forall s caps k k',
    (forall t cs, k t cs = k' t cs) ->
    run n r s caps k = run n' r s caps k'.
Proof.
  induction r as [l|c|c|c|r1 IH1 r2 IH2|r1 IH1 r2 IH2|i r1 IH1|r1 IH1| |];
    simpl; intros Hb s caps k k' Hk.
  - destruct (strip_prefix l s); auto.
  - destruct s as [|a s]; auto. destruct (in_cls c a); auto.
  - apply lazy_loop_ext. auto.
  - destruct s as [|a s]; auto. destruct (in_cls c a); auto.
    apply greedy_loop_ext. auto.
  - apply andb_true_iff in Hb. destruct Hb as [H1 H2].
    apply IH1; auto.
  - apply andb_true_iff in Hb. destruct Hb as [H1 H2].
    rewrite (IH1 H1 s caps k k' Hk), (IH2 H2 s caps k k' Hk). reflexivity.
  - apply IH1; auto.
  - rewrite (IH1 Hb s caps _ (fun t cs => Some (t, cs))); auto.
    destruct (run n' r1 s caps (fun t cs => Some (t, cs))) as [[? ?]|]; auto.
  - destruct s; auto.
  - discriminate Hb.
Qed.

Lemma match_at_bos_free (n n' : nat) (r : re) (s : string) :
  bos_free r = true -> match_at n r s = match_at n' r s.
Proof. intros H. apply run_bos_free; auto. Qed.

(** A match leaves a rest of the text it started on. *)
Lemma run_rest (n : nat) (r : re) :
  forall s caps k res,
    (forall t cs res, k t cs = Some res -> rest_of (fst res) t) ->
    run n r s caps k = Some res -> rest_of (fst res) s.
Proof.
  induction r as [l|c|c|c|r1 IH1 r2 IH2|r1 IH1 r2 IH2|i r1 IH1|r1 IH1| |];
    simpl; intros s caps k res Hk H.
  - destruct (strip_prefix l s) as [s'|] eqn:E; [ | discriminate H ].
    apply strip_prefix_some in E. subst s.
    eapply rest_of_trans; [ eapply Hk; exact H | exists l; reflexivity ].
  - destruct s as [|a s]; [ discriminate H | ].
    destruct (in_cls c a); [ | discriminate H ].
    apply rest_of_cons. eauto.
  - eapply lazy_loop_rest; [ | exact H ]. intros t r. apply Hk.
  - destruct s as [|a s]; [ discriminate H | ].
    destruct (in_cls c a); [ | discriminate H ].
    apply rest_of_cons. eapply greedy_loop_rest; [ | exact H ].
    intros t r. apply Hk.
  - eapply IH1; [ | exact H ]. intros t cs res'. apply IH2. exact Hk.
  - destruct (run n r1 s caps k) eqn:E.
    + injection H as <-. eapply IH1; eauto.
    + eapply IH2; eauto.
  - eapply IH1; [ | exact H ]. intros t cs res'. simpl. apply Hk.
  - destruct (run n r1 s caps (fun t cs => Some (t, cs))) as [[? cs]|];
      [ | discriminate H ].
    eauto.
  - destruct s; [ eauto | discriminate H ].
  - destruct (Nat.eqb (String.length s) n); [ eauto | discriminate H ].
Qed.

Lemma match_at_rest (n : nat) (r : re) (s t : string) (cs : captures) :
  match_at n r s = Some (t, cs) -> rest_of t s.
Proof.
  intros H. apply (run_rest n r s [] _ (t, cs)) in H; [ exact H | ].
  intros t' cs' res' E. injection E as <-. apply rest_of_refl.
Qed.

End MatcherFacts.

Section SearchFacts.
Variable n : nat.
Variable r : re.

Lemma search_from_eq (pre s : string) :
  search_from n r pre s =
  match match_at n r s with
  | Some (t, cs) =>
      Some (MatchObj pre (take (String.length s - String.length t) s) t cs)
  | None =>
      match s with
      | String a s' => search_from n r (pre ++ String a EmptyString) s'
      | EmptyString => None
      end
  end.
Proof. destruct s; reflexivity. Qed.

Lemma match_at_taken (s t : string) (cs : captures) :
  match_at n r s = Some (t, cs) ->
  exists text, take (String.length s - String.length t) s = text /\ s = text ++ t.
Proof.
  intros H. destruct (match_at_rest _ _ _ _ _ H) as [y Hy].
  exists y. split; [ | exact Hy ]. rewrite Hy. apply take_append.
Qed.

(** [re.search] returns the leftmost place where the pattern matches, cut
    into the text before it, the match and the text after it. *)
Lemma search_from_some (pre s : string) (m : match_obj) :
  search_from n r pre s = Some m ->
  exists x, m_pre m = pre ++ x
    /\ s = x ++ m_text m ++ m_post m
    /\ match_at n r (m_text m ++ m_post m) = Some (m_post m, m_groups m)
    /\ (forall x1 x2, x = x1 ++ x2 -> x2 <> "" ->
        match_at n r (x2 ++ m_text m ++ m_post m) = None).
Proof.
  revert pre m. induction s as [|a s IH]; intros pre m; rewrite search_from_eq.
  - destruct (match_at n r "") as [[t cs]|] eqn:E; intros H; [ | discriminate H ].
    destruct (match_at_taken _ _ _ E) as (text & Ht & Hs).
    rewrite Ht in H. injection H as <-. cbn [m_pre m_text m_post m_groups].
    exists "". rewrite append_empty_r, <- Hs. repeat split; auto.
    intros [|] [|] H; try discriminate H. congruence.
  - destruct (match_at n r (String a s)) as [[t cs]|] eqn:E; intros H.
    + destruct (match_at_taken _ _ _ E) as (text & Ht & Hs).
      rewrite Ht in H. injection H as <-. cbn [m_pre m_text m_post m_groups].
      exists "". rewrite append_empty_r, <- Hs. repeat split; auto.
      intros [|] [|] H; try discriminate H. congruence.
    + destruct (IH _ _ H) as (x & Hpre & Hs & Hm & Hmin).
      exists (String a x). rewrite Hpre, append_append.
      repeat split; auto; [ simpl; congruence | ].
      intros [|b x1] x2 Hx Hne.
      * simpl in Hx. subst x2. simpl. rewrite <- Hs. exact E.
      * simpl in Hx. injection Hx as _ Hx. eauto.
Qed.

Lemma search_from_none (pre s : string) :
  search_from n r pre s = None ->
  forall x1 x2, s = x1 ++ x2 -> match_at n r x2 = None.
Proof.
  revert pre. induction s as [|a s IH]; intros pre; simpl.
  - destruct (match_at n r "") as [[t cs]|] eqn:E; intros H; [ discriminate H | ].
    intros [|] [|] Hx; try discriminate Hx. exact E.
  - destruct (match_at n r (String a s)) as [[t cs]|] eqn:E; intros H;
      [ discriminate H | ].
    intros [|b x1] x2 Hx; simpl in Hx.
    + subst x2. exact E.
    + injection Hx as _ Hx. eauto.
Qed.

Variable tpl : template.

Lemma sub_loop_skip (x y : string) :
  sub_loop n r tpl (String.length x) (x ++ y) = sub_loop n r tpl 0 y.
Proof.
  induction x as [|a x IH]; simpl; [ | exact IH ].
  destruct y; reflexivity.
Qed.

(** Where the pattern does not match, the text is copied. *)
Lemma sub_loop_copy (x y : string) :
  (forall x1 x2, x = x1 ++ x2 -> x2 <> "" -> match_at n r (x2 ++ y) = None) ->
  sub_loop n r tpl 0 (x ++ y) = x ++ sub_loop n r tpl 0 y.
Proof.
  induction x as [|a x IH]; intros H; [ reflexivity | ].
  assert (E0 : match_at n r (String a (x ++ y)) = None)
    by (apply (H "" (String a x)); [ reflexivity | discriminate ]).
  simpl. rewrite E0, IH; [ reflexivity | ].
  intros x1 x2 Hx Hne. apply (H (String a x1) x2); [ | exact Hne ].
  simpl. rewrite Hx. reflexivity.
Qed.

Lemma sub_loop_no_match (s : string) :
  (forall x1 x2, s = x1 ++ x2 -> match_at n r x2 = None) ->
  sub_loop n r tpl 0 s = s.
Proof.
  induction s as [|a s IH]; intros H; simpl.
  - rewrite (H "" ""); reflexivity.
  - rewrite (H "" (String a s)); try reflexivity.
    rewrite IH; [ reflexivity | ].
    intros x1 x2 Hx. apply (H (String a x1) x2). simpl. rewrite Hx. reflexivity.
Qed.

Lemma sub_loop_eq (s : string) :
  sub_loop n r tpl 0 s =
  match match_at n r s with
  | Some (t, cs) =>
      expand tpl (take (String.length s - String.length t) s) cs ++
      match s with
      | String a s' =>
          match String.length s - String.length t with
          | 0 => String a (sub_loop n r tpl 0 s')
          | S l => sub_loop n r tpl l s'
          end
      | EmptyString => EmptyString
      end
  | None =>
      match s with
      | String a s' => String a (sub_loop n r tpl 0 s')
      | EmptyString => EmptyString
      end
  end.
Proof. destruct s; reflexivity. Qed.

(** Where it matches a non-empty text, the expansion of the template takes
    the place of the match and the scan resumes after it. *)
Lemma sub_loop_hit (text t : string) (cs : captures) :
  text <> "" ->
  match_at n r (text ++ t) = Some (t, cs) ->
  sub_loop n r tpl 0 (text ++ t) = expand tpl text cs ++ sub_loop n r tpl 0 t.
Proof.
  intros Hne Hm. rewrite sub_loop_eq, Hm, take_append, length_append.
  replace (String.length text + String.length t - String.length t)
    with (String.length text) by lia.
  destruct text as [|a text]; [ congruence | ].
  cbn [append String.length]. rewrite sub_loop_skip. reflexivity.
Qed.

End SearchFacts.

Lemma expand_literal (s text : string) (cs : captures) :
  expand (literal s) text cs = s.
Proof.
  induction s as [|a s IH]; simpl; [ | unfold literal in IH; rewrite IH ]; reflexivity.
Qed.

Lemma parse_template_literal (ng : nat) (s : string) :
  has_char "\" s = false -> parse_template ng PText s = Some (literal s).
Proof.
  induction s as [|a s IH]; [ reflexivity | ].
  intros H. simpl in H. apply orb_false_iff in H. destruct H as [Ha Hs].
  specialize (IH Hs).
  destruct a as [[] [] [] [] [] [] [] []]; try discriminate Ha;
    simpl; rewrite IH; reflexivity.
Qed.

Section SubFacts.
Variable r : re.
Hypothesis r_free : bos_free r = true.
Hypothesis r_nonempty :
  forall n s t cs, match_at n r s = Some (t, cs) -> t <> s.

Lemma sub_loop_subject_length (n n' : nat) (tpl : template) (s : string) :
  forall skip, sub_loop n r tpl skip s = sub_loop n' r tpl skip s.
Proof.
  induction s as [|a s IH]; intros [|skip]; simpl; auto;
    rewrite (match_at_bos_free n n' r _ r_free).
  - reflexivity.
  - destruct (match_at n' r (String a s)) as [[t cs]|]; [ | rewrite IH; reflexivity ].
    f_equal. match goal with |- match ?d with _ => _ end = _ => destruct d end;
      rewrite IH; reflexivity.
Qed.

(** [re.sub] on a text, by its leftmost match: no match, no change;
    otherwise the text before the match is kept, the match gives way to the
    expansion of the template, and the text after the match is treated in
    the same way. *)
Lemma re_sub_by_search (repl : string) (tpl : template) (s : string) :
  parse_template (ngroups r) PText repl = Some tpl ->
  match re_search r s with
  | None => re_sub r repl s = Some s
  | Some m =>
      s = m_pre m ++ m_text m ++ m_post m
      /\ exists out,
          re_sub r repl (m_post m) = Some out
          /\ re_sub r repl s
             = Some (m_pre m ++ expand tpl (m_text m) (m_groups m) ++ out)
  end.
Proof.
  intros Hp. unfold re_sub, re_search. rewrite Hp.
  remember (String.length s) as n eqn:Hn. clear Hn.
  destruct (search_from n r "" s) as [m|] eqn:E.
  - destruct (search_from_some _ _ _ _ _ E) as (x & Hpre & Hs & Hm & Hmin).
    simpl in Hpre. rewrite Hpre. split; [ exact Hs | ].
    eexists. split; [ reflexivity | ]. f_equal.
    rewrite Hs at 1. rewrite sub_loop_copy by exact Hmin.
    rewrite (sub_loop_hit n r tpl (m_text m) (m_post m) (m_groups m));
      [ | | exact Hm ].
    + rewrite (sub_loop_subject_length n (String.length (m_post m))).
      reflexivity.
    + intros H0. apply r_nonempty in Hm. rewrite H0 in Hm. apply Hm. reflexivity.
  - f_equal. apply sub_loop_no_match. apply (search_from_none _ _ _ _ E).
Qed.

End SubFacts.

(** A pattern that begins with a non-empty literal matches no empty text. *)
Lemma seq_lit_nonempty (a : ascii) (p : string) (r' : re)
  (n : nat) (s t : string) (cs : captures) :
  match_at n (Seq (Lit (String a p)) r') s = Some (t, cs) -> t <> s.
Proof.
  unfold match_at. cbn [run].
  destruct (strip_prefix (String a p) s) as [s'|] eqn:E; [ | discriminate ].
  apply strip_prefix_some in E. intros H.
  apply (run_rest n r' s' [] _ (t, cs)) in H.
  - apply rest_of_length in H. simpl in H. intros ->.
    apply (f_equal String.length) in E. simpl in E.
    rewrite length_append in E. lia.
  - intros t' cs' res' E'. injection E' as <-. apply rest_of_refl.
Qed.

Section ExtractionFacts.

Lemma append_longer_prefix (u v t y : string) :
  u ++ t = v ++ y -> String.length u <= String.length v -> rest_of y t.
Proof.
  revert v. induction u as [|c u IH]; intros v H Hlen; simpl in H.
  - exists v. exact H.
  - destruct v as [|d v]; simpl in Hlen; [ lia | ].
    simpl in H. injection H as _ H. apply (IH v H). lia.
Qed.

Lemma after_eq (sub s : string) :
  after sub s =
  match strip_prefix sub s with
  | Some t => Some t
  | None =>
      match s with
      | String _ s' => after sub s'
      | EmptyString => None
      end
  end.
Proof. destruct s; reflexivity. Qed.

Lemma after_append (sub x y : string) :
  exists z, after sub (x ++ sub ++ y) = Some (z ++ y).
Proof.
  induction x as [|a x IH].
  - exists "". simpl append. rewrite after_eq, strip_prefix_append. reflexivity.
  - change (String a x ++ sub ++ y) with (String a (x ++ sub ++ y)).
    rewrite after_eq.
    destruct (strip_prefix sub (String a (x ++ sub ++ y))) as [t|] eqn:E.
    + apply strip_prefix_some in E.
      assert (H : rest_of y t).
      { apply (append_longer_prefix sub (String a x ++ sub) t y).
        - rewrite append_append. symmetry. exact E.
        - rewrite length_append. lia. }
      destruct H as [z ->]. exists z. reflexivity.
    + exact IH.
Qed.

Lemma lazy_any_finds (k : string -> option res) (x t : string) :
  k t <> None -> lazy_loop CAny k (x ++ t) <> None.
Proof.
  intros H. induction x as [|a x IH].
  - simpl. destruct t; simpl; destruct (k _); congruence.
  - change (String a x ++ t) with (String a (x ++ t)). cbn [lazy_loop].
    destruct (k (String a (x ++ t))); [ discriminate | ]. exact IH.
Qed.

(** The shape of a text that [phase_re] matches. *)
Lemma phase_re_some (n : nat) (s t : string) (cs : captures) :
  match_at n phase_re s = Some (t, cs) ->
  exists b c,
    s = "## Current Phase: " ++ b ++ (LF ++ "Progress: ") ++ c ++ "%" ++ t.
Proof.
  unfold match_at, phase_re. cbn [run].
  destruct (strip_prefix "## Current Phase: " s) as [s1|] eqn:E1; [ | discriminate ].
  apply strip_prefix_some in E1. intros H.
  apply lazy_loop_some in H. destruct H as (b & t1 & -> & H & _).
  destruct (strip_prefix (LF ++ "Progress: ") t1) as [s2|] eqn:E2; [ | discriminate ].
  apply strip_prefix_some in E2.
  apply lazy_loop_some in H. destruct H as (c & t2 & -> & H & _).
  destruct (strip_prefix "%" t2) as [s3|] eqn:E3; [ | discriminate ].
  apply strip_prefix_some in E3. injection H as -> _.
  exists b, c. rewrite E1, E2, E3. reflexivity.
Qed.

Lemma phase_re_finds (n : nat) (b c t : string) :
  match_at n phase_re
    ("## Current Phase: " ++ b ++ (LF ++ "Progress: ") ++ c ++ "%" ++ t) <> None.
Proof.
  unfold match_at, phase_re. cbn [run]. rewrite strip_prefix_append.
  apply lazy_any_finds. rewrite strip_prefix_append.
  apply lazy_any_finds. rewrite strip_prefix_append. discriminate.
Qed.

Lemma progress_follows_shape (a b c d : string) :
  progress_follows
    (a ++ "## Current Phase: " ++ b ++ (LF ++ "Progress: ") ++ c ++ "%" ++ d) = true.
Proof.
  unfold progress_follows.
  destruct (after_append "## Current Phase: " a
              (b ++ (LF ++ "Progress: ") ++ c ++ "%" ++ d)) as [z ->].
  rewrite <- (append_append z b).
  destruct (after_append (LF ++ "Progress: ") (z ++ b) (c ++ "%" ++ d)) as [z' ->].
  rewrite !has_char_append. simpl. rewrite !orb_true_r. reflexivity.
Qed.

Lemma after_some (sub s t : string) :
  after sub s = Some t -> exists x, s = x ++ sub ++ t.
Proof.
  induction s as [|a s IH]; rewrite after_eq.
  - destruct (strip_prefix sub "") as [t'|] eqn:E; [ | discriminate ].
    intros H. injection H as ->. apply strip_prefix_some in E. exists "". exact E.
  - destruct (strip_prefix sub (String a s)) as [t'|] eqn:E.
    + intros H. injection H as ->. apply strip_prefix_some in E. exists "". exact E.
    + intros H. destruct (IH H) as [x ->]. exists (String a x). reflexivity.
Qed.

Lemma has_char_split (c : ascii) (s : string) :
  has_char c s = true -> exists x y, s = x ++ String c y.
Proof.
  induction s as [|a s IH]; simpl; [ discriminate | ].
  destruct (Ascii.eqb_spec a c) as [->|Hne]; simpl.
  - intros _. exists "", s. reflexivity.
  - intros H. destruct (IH H) as (x & y & ->). exists (String a x), y. reflexivity.
Qed.

(** The combined pattern finds a match exactly when a progress line
    follows the phase header. *)
Lemma phase_match_iff (context : string) :
  phase_match context = None <-> progress_follows context = false.
Proof.
  unfold phase_match, re_search. split.
  - intros H. destruct (progress_follows context) eqn:E; [ | reflexivity ].
    exfalso. unfold progress_follows in E.
    destruct (after "## Current Phase: " context) as [r1|] eqn:E1; [ | discriminate ].
    destruct (after (LF ++ "Progress: ") r1) as [r2|] eqn:E2; [ | discriminate ].
    apply after_some in E1. destruct E1 as [a E1].
    apply after_some in E2. destruct E2 as [b E2].
    apply has_char_split in E. destruct E as (c & d & E).
    subst r2 r1.
    apply (search_from_none _ _ _ _ H a) in E1.
    exact (phase_re_finds (String.length context) b c d E1).
  - intros H.
    destruct (search_from (String.length context) phase_re "" context) as [m|] eqn:E;
      [ | reflexivity ].
    exfalso. apply search_from_some in E. destruct E as (x & _ & Hs & Hm & _).
    apply phase_re_some in Hm. destruct Hm as (b & c & Hm).
    rewrite Hm in Hs. rewrite Hs, progress_follows_shape in H. discriminate H.
Qed.

(** The lookahead of a keyed-line pattern succeeds exactly at a stop. *)
Lemma keyed_stop (n : nat) (t : string) (cs : captures) :
  run n (Ahead (Alt (Lit LF) (Alt (Lit "-") Eos))) t cs (fun t' cs' => Some (t', cs'))
  = if stops t then Some (t, cs) else None.
Proof.
  cbn [run]. destruct t as [|c t]; [ reflexivity | ].
  unfold stops. cbn [strip_prefix LF].
  destruct (Ascii.eqb_spec "010" c) as [<-|H1]; [ reflexivity | ].
  destruct (Ascii.eqb_spec "-" c) as [<-|H2]; [ reflexivity | ].
  destruct (Ascii.eqb_spec c "010"); [ congruence | ].
  destruct (Ascii.eqb_spec c "-"); [ congruence | ].
  reflexivity.
Qed.

Lemma no_stop_inside (g t : string) :
  (forall x1 x2, g = x1 ++ x2 -> x2 <> "" -> stops (x2 ++ t) = false) ->
  has_char "-" g = false /\ has_char "010" g = false.
Proof.
  induction g as [|c g IH]; intros H; [ split; reflexivity | ].
  assert (Hc : stops (String c g ++ t) = false)
    by (apply (H "" (String c g)); [ reflexivity | discriminate ]).
  simpl in Hc. apply orb_false_iff in Hc. destruct Hc as [Hn Hh].
  destruct IH as [I1 I2].
  - intros x1 x2 Hx Hne. apply (H (String c x1) x2); [ | exact Hne ].
    simpl. rewrite Hx. reflexivity.
  - simpl. rewrite Hn, Hh, I1, I2. split; reflexivity.
Qed.

Lemma run_lit_group_lazy (n : nat) (p : string) (c : cls) (A : re) (s : string)
  (k : string -> captures -> option res) :
  run n (Seq (Lit p) (Seq (Grp 1 (Lazy c)) A)) s [] k
  = match strip_prefix p s with
    | Some s1 =>
        lazy_loop c
          (fun t => run n A t [(1, take (String.length s1 - String.length t) s1)] k) s1
    | None => None
    end.
Proof. reflexivity. Qed.

(** The shape of a text that a keyed-line pattern matches: the prefix, a
    value without hyphen and line feed, and a stop. *)
Lemma keyed_re_some (n : nat) (key s t : string) (cs : captures) :
  match_at n (keyed_re key) s = Some (t, cs) ->
  exists g,
    s = ("- " ++ key ++ ": ") ++ g ++ t /\ cs = [(1, g)]
    /\ has_char "-" g = false /\ has_char "010" g = false /\ stops t = true.
Proof.
  unfold match_at, keyed_re. rewrite run_lit_group_lazy.
  destruct (strip_prefix ("- " ++ key ++ ": ") s) as [s1|] eqn:E1; [ | discriminate ].
  apply strip_prefix_some in E1. intros H.
  apply lazy_loop_some in H. destruct H as (g & t1 & -> & H & Hmin).
  rewrite keyed_stop in H. destruct (stops t1) eqn:Et; [ | discriminate H ].
  injection H as <- <-. rewrite take_append.
  exists g. repeat split; auto.
  - apply (no_stop_inside g t1). intros x1 x2 Hx Hne.
    specialize (Hmin x1 x2 Hx Hne). rewrite keyed_stop in Hmin.
    destruct (stops (x2 ++ t1)); [ discriminate Hmin | reflexivity ].
  - apply (no_stop_inside g t1). intros x1 x2 Hx Hne.
    specialize (Hmin x1 x2 Hx Hne). rewrite keyed_stop in Hmin.
    destruct (stops (x2 ++ t1)); [ discriminate Hmin | reflexivity ].
Qed.

(** What [re.search] returns for a keyed-line pattern. *)
Lemma keyed_search_some (key state : string) (m : match_obj) :
  re_search (keyed_re key) state = Some m ->
  state = m_pre m ++ ("- " ++ key ++ ": ") ++ group m 1 ++ m_post m
  /\ m_text m = ("- " ++ key ++ ": ") ++ group m 1
  /\ has_char "-" (group m 1) = false
  /\ has_char "010" (group m 1) = false
  /\ stops (m_post m) = true.
Proof.
  unfold re_search. intros H.
  apply search_from_some in H. destruct H as (x & Hpre & Hs & Hm & _).
  simpl in Hpre. subst x.
  apply keyed_re_some in Hm. destruct Hm as (g & Hg & Hcs & H1 & H2 & H3).
  rewrite <- append_append in Hg. apply append_cancel_r in Hg.
  unfold group, group_of. rewrite Hcs. cbn [lookup Nat.eqb].
  rewrite Hs, Hg, !append_append. repeat split; auto.
Qed.

Lemma keyed_value_no_hyphen (key default state : string) :
  has_char "-" default = false ->
  has_char "-" (keyed_value (keyed_re key) default state) = false.
Proof.
  intros Hd. unfold keyed_value.
  destruct (re_search (keyed_re key) state) as [m|] eqn:E; [ | exact Hd ].
  apply has_char_strip. apply (keyed_search_some _ _ _ E).
Qed.

End ExtractionFacts.
Section SectionFacts.

Lemma search_from_finds (n : nat) (r : re) (pre x rest t : string) (cs : captures) :
  (forall x1 x2, x = x1 ++ x2 -> x2 <> "" -> match_at n r (x2 ++ rest) = None) ->
  match_at n r rest = Some (t, cs) ->
  search_from n r pre (x ++ rest)
  = Some (MatchObj (pre ++ x) (take (String.length rest - String.length t) rest) t cs).
Proof.
  revert pre. induction x as [|a x IH]; intros pre Hmin Hm.
  - simpl append. rewrite search_from_eq, Hm, append_empty_r. reflexivity.
  - change (String a x ++ rest) with (String a (x ++ rest)).
    rewrite search_from_eq.
    assert (E0 : match_at n r (String a (x ++ rest)) = None)
      by (apply (Hmin "" (String a x)); [ reflexivity | discriminate ]).
    rewrite E0, IH; [ | | exact Hm ].
    + rewrite append_append. reflexivity.
    + intros x1 x2 Hx Hne. apply (Hmin (String a x1) x2); [ | exact Hne ].
      simpl. rewrite Hx. reflexivity.
Qed.

Lemma section_split (s : string) : s = section_body s ++ section_tail s.
Proof.
  induction s as [|c s IH]; [ reflexivity | ].
  cbn [section_body section_tail].
  destruct (heading_stop (String c s)); [ reflexivity | ].
  simpl. rewrite <- IH. reflexivity.
Qed.

Lemma section_body_eq (s : string) :
  section_body s =
  if heading_stop s then ""
  else match s with
       | String c s' => String c (section_body s')
       | EmptyString => EmptyString
       end.
Proof. destruct s; reflexivity. Qed.

(** The lookahead of a section pattern succeeds exactly at a heading stop. *)
Lemma section_stop (n : nat) (t : string) (cs : captures) :
  run n (Ahead (Alt (Lit (LF ++ "##")) Eos)) t cs (fun t' cs' => Some (t', cs'))
  = if heading_stop t then Some (t, cs) else None.
Proof.
  cbn [run]. unfold heading_stop.
  destruct (strip_prefix (LF ++ "##") t) as [u|] eqn:E.
  - destruct t; reflexivity.
  - destruct t; reflexivity.
Qed.

Lemma lazy_section (x rest : string) :
  lazy_loop CAny
    (fun t =>
       if heading_stop t
       then Some (t, [(1, take (String.length (x ++ rest) - String.length t) (x ++ rest))])
       else None) rest
  = Some (section_tail rest, [(1, x ++ section_body rest)]).
Proof.
  revert x. induction rest as [|c rest IH]; intros x.
  - cbn. rewrite !append_empty_r, Nat.sub_0_r.
    pose proof (take_append x "") as H. rewrite append_empty_r in H. simpl in H.
    rewrite Nat.sub_0_r in H. rewrite H. reflexivity.
  - cbn [lazy_loop section_tail section_body in_cls].
    destruct (heading_stop (String c rest)) eqn:E.
    + rewrite take_append, append_empty_r. reflexivity.
    + specialize (IH (x ++ String c "")).
      rewrite !append_append in IH. simpl in IH. exact IH.
Qed.

(** A section pattern matches wherever its heading line stands, and
    captures the body of the section. *)
Lemma section_re_at (n : nat) (heading s : string) :
  match_at n (section_re heading) s
  = match strip_prefix ("## " ++ heading ++ LF) s with
    | Some rest => Some (section_tail rest, [(1, section_body rest)])
    | None => None
    end.
Proof.
  unfold match_at, section_re. rewrite run_lit_group_lazy.
  destruct (strip_prefix ("## " ++ heading ++ LF) s) as [rest|]; [ | reflexivity ].
  rewrite (lazy_loop_ext _ _
             (fun t => if heading_stop t
                       then Some (t, [(1, take (String.length ("" ++ rest) - String.length t)
                                            ("" ++ rest))])
                       else None)).
  - apply (lazy_section "" rest).
  - intros t. apply section_stop.
Qed.

(** The pattern of [update_state] for the Completed heading. *)
Lemma completed_pattern_at (n : nat) (s : string) :
  match_at n completed_pattern s
  = match strip_prefix ("## Completed" ++ LF) s with
    | Some rest => Some (rest, [(1, "## Completed" ++ LF)])
    | None => None
    end.
Proof.
  unfold match_at, completed_pattern. cbn [run].
  destruct (strip_prefix ("## Completed" ++ LF) s) as [rest|] eqn:E; [ | reflexivity ].
  apply strip_prefix_some in E. subst s. rewrite take_append. reflexivity.
Qed.

Lemma strip_prefix_longer (p u v v' : string) :
  String.length p <= String.length u ->
  strip_prefix p (u ++ v) = None -> strip_prefix p (u ++ v') = None.
Proof.
  revert u. induction p as [|a p IH]; intros u Hlen; simpl.
  - discriminate.
  - destruct u as [|b u]; simpl in Hlen; [ lia | ]. simpl.
    destruct (Ascii.eqb a b); [ | reflexivity ].
    apply IH. lia.
Qed.

End SectionFacts.
Section BulletFacts.

Lemma rstrip_eq (c : ascii) (s : string) :
  rstrip (String c s) =
  match rstrip s with
  | EmptyString => if is_space c then EmptyString else String c EmptyString
  | r => String c r
  end.
Proof. reflexivity. Qed.

Lemma rstrip_append (x b : string) :
  rstrip b <> "" -> rstrip (x ++ b) = x ++ rstrip b.
Proof.
  intros Hb. induction x as [|a x IH]; [ reflexivity | ].
  change (String a x ++ b) with (String a (x ++ b)).
  rewrite rstrip_eq, IH.
  destruct (x ++ rstrip b) eqn:E; [ | simpl; rewrite E; reflexivity ].
  destruct x; [ simpl in E; congruence | discriminate E ].
Qed.

Lemma rstrip_starts_nonspace (c : ascii) (s : string) :
  is_space c = false -> rstrip (String c s) <> "".
Proof.
  intros Hc. rewrite rstrip_eq. destruct (rstrip s); [ rewrite Hc | ]; discriminate.
Qed.

Lemma split_line (sep : ascii) (x y : string) :
  has_char sep x = false -> split sep (x ++ String sep y) = x :: split sep y.
Proof.
  induction x as [|a x IH]; simpl; intros H.
  - rewrite Ascii.eqb_refl. reflexivity.
  - apply orb_false_iff in H. destruct H as [Ha Hx].
    rewrite Ha, (IH Hx). reflexivity.
Qed.

Lemma startswith_bullet (s : string) :
  startswith "- " s = true -> exists s', s = "- " ++ s'.
Proof.
  unfold startswith. intros H. apply String.prefix_correct in H.
  destruct s as [|c1 [|c2 s']]; simpl in H; try discriminate H.
  injection H as -> -> _. exists s'. reflexivity.
Qed.

(** A line without line feed at the head of a section stays in its body. *)
Lemma section_body_line (u post : string) :
  has_char "010" u = false ->
  heading_stop (LF ++ post) = false ->
  section_body (u ++ LF ++ post) = u ++ LF ++ section_body post.
Proof.
  intros Hu Hp. induction u as [|c u IH].
  - simpl append. change (String "010" post) with (LF ++ post).
    rewrite section_body_eq, Hp. reflexivity.
  - simpl in Hu. apply orb_false_iff in Hu. destruct Hu as [Hc Hu].
    change (String c u ++ LF ++ post) with (String c (u ++ LF ++ post)).
    rewrite section_body_eq.
    assert (E : heading_stop (String c (u ++ LF ++ post)) = false).
    { unfold heading_stop. cbn [strip_prefix LF append].
      destruct (Ascii.eqb_spec "010" c) as [<-|]; [ discriminate Hc | reflexivity ]. }
    rewrite E, (IH Hu). reflexivity.
Qed.

(** A new bullet line in front of a body that starts with a bullet is one
    more entry in front of the entries of the body. *)
Lemma bullets_cons (e body : string) :
  has_char "010" e = false ->
  bullets (("- " ++ e ++ LF) ++ "- " ++ body)
  = strip e :: bullets ("- " ++ body).
Proof.
  intros He. unfold bullets, bullet_lines, strip.
  assert (Hb : rstrip ("- " ++ body) <> "") by (apply rstrip_starts_nonspace; reflexivity).
  change (lstrip (("- " ++ e ++ LF) ++ "- " ++ body))
    with (("- " ++ e ++ LF) ++ "- " ++ body).
  change (lstrip ("- " ++ body)) with ("- " ++ body).
  rewrite (rstrip_append _ _ Hb).
  rewrite !append_append.
  change ("- " ++ e ++ LF ++ rstrip ("- " ++ body))
    with (("- " ++ e) ++ String "010" (rstrip ("- " ++ body))).
  rewrite split_line by exact He.
  cbn [filter].
  assert (Hs : startswith "- " ("- " ++ e) = true)
    by (apply String.prefix_correct; destruct e; reflexivity).
  rewrite Hs. reflexivity.
Qed.

End BulletFacts.
Section CompletedFacts.

Lemma keyed_value_no_newline (key default state : string) :
  has_char "010" default = false ->
  has_char "010" (keyed_value (keyed_re key) default state) = false.
Proof.
  intros Hd. unfold keyed_value.
  destruct (re_search (keyed_re key) state) as [m|] eqn:E; [ | exact Hd ].
  apply has_char_strip. apply (keyed_search_some _ _ _ E).
Qed.

Lemma completed_pattern_nonempty (n : nat) (s t : string) (cs : captures) :
  match_at n completed_pattern s = Some (t, cs) -> t <> s.
Proof.
  rewrite completed_pattern_at.
  destruct (strip_prefix ("## Completed" ++ LF) s) as [rest|] eqn:E; [ | discriminate ].
  apply strip_prefix_some in E. intros H. injection H as -> _. intros ->.
  apply (f_equal String.length) in E. rewrite length_append in E. simpl in E. lia.
Qed.

(** Where [re.search] finds the Completed heading of [update_state]: no
    heading line begins before it. *)
Lemma completed_search_some (state : string) (mc : match_obj) :
  re_search completed_pattern state = Some mc ->
  state = m_pre mc ++ ("## Completed" ++ LF) ++ m_post mc
  /\ m_text mc = "## Completed" ++ LF
  /\ m_groups mc = [(1, "## Completed" ++ LF)]
  /\ (forall z x1 x2, m_pre mc = x1 ++ x2 -> x2 <> "" ->
      strip_prefix ("## Completed" ++ LF) (x2 ++ ("## Completed" ++ LF) ++ z) = None).
Proof.
  unfold re_search. intros H.
  apply search_from_some in H. destruct H as (x & Hpre & Hs & Hm & Hmin).
  simpl in Hpre. subst x.
  rewrite completed_pattern_at in Hm.
  destruct (strip_prefix ("## Completed" ++ LF) (m_text mc ++ m_post mc))
    as [rest|] eqn:E; [ | discriminate Hm ].
  injection Hm as -> Hg. apply strip_prefix_some in E.
  apply append_cancel_r in E.
  rewrite E in Hs, Hmin. repeat split; auto.
  intros z x1 x2 Hx Hne. specialize (Hmin x1 x2 Hx Hne).
  rewrite completed_pattern_at in Hmin.
  destruct (strip_prefix ("## Completed" ++ LF)
              (x2 ++ ("## Completed" ++ LF) ++ m_post mc)) eqn:E2;
    [ discriminate Hmin | ].
  remember ("## Completed" ++ LF) as hd eqn:Hhd. clear Hhd.
  rewrite <- (append_append x2 hd) in E2 |- *.
  apply (strip_prefix_longer _ _ _ z) in E2; [ exact E2 | ].
  rewrite length_append. lia.
Qed.

(** The entries of the Completed section, when its heading is the first in
    the document. *)
Lemma completed_tasks_at (pre rest : string) :
  (forall x1 x2, pre = x1 ++ x2 -> x2 <> "" ->
   strip_prefix ("## Completed" ++ LF) (x2 ++ ("## Completed" ++ LF) ++ rest) = None) ->
  completed_tasks (pre ++ ("## Completed" ++ LF) ++ rest) = bullets (section_body rest).
Proof.
  intros Hmin. unfold completed_tasks, completed_re, re_search.
  rewrite (search_from_finds _ (section_re "Completed") "" pre
             (("## Completed" ++ LF) ++ rest)
             (section_tail rest) [(1, section_body rest)]).
  - reflexivity.
  - intros x1 x2 Hx Hne. rewrite section_re_at.
    change ("## " ++ "Completed" ++ LF) with ("## Completed" ++ LF).
    rewrite (Hmin x1 x2 Hx Hne). reflexivity.
  - rewrite section_re_at.
    change ("## " ++ "Completed" ++ LF) with ("## Completed" ++ LF).
    rewrite strip_prefix_append. reflexivity.
Qed.

Lemma parse_completed_template (l : string) :
  has_char "\" l = false ->
  parse_template 1 PText ("\1- " ++ l) = Some (TRef 1 :: literal ("- " ++ l)).
Proof.
  intros H.
  change (parse_template 1 PText ("\1- " ++ l))
    with (add_group 1 1 (parse_template 1 PText ("- " ++ l))).
  rewrite parse_template_literal; [ reflexivity | exact H ].
Qed.

(** The text that the block under [if task_completed:] produces when the
    document has one Completed heading and the bullet has no backslash. *)
Lemma add_completed_text (state task_completed : string) (mc : match_obj) :
  re_search completed_pattern state = Some mc ->
  re_search completed_pattern (m_post mc) = None ->
  has_char "\" (keyed_value task_re "implementation" state) = false ->
  has_char "\" task_completed = false ->
  add_completed task_completed state
  = Some (m_pre mc ++ ("## Completed" ++ LF)
          ++ ("- " ++ keyed_value task_re "implementation" state ++ ": "
              ++ task_completed ++ LF)
          ++ m_post mc).
Proof.
  intros Hm Hone Ht Hc. unfold add_completed.
  set (T := keyed_value task_re "implementation" state) in *.
  assert (Hl : has_char "\" (T ++ ": " ++ task_completed ++ LF) = false)
    by (rewrite !has_char_append, Ht, Hc; reflexivity).
  pose proof (parse_completed_template _ Hl) as Hp.
  change ("\1- " ++ T ++ ": " ++ task_completed ++ LF)
    with ("\1- " ++ (T ++ ": " ++ task_completed ++ LF)).
  pose proof (re_sub_by_search completed_pattern eq_refl completed_pattern_nonempty
                _ _ state Hp) as H1.
  pose proof (re_sub_by_search completed_pattern eq_refl completed_pattern_nonempty
                _ _ (m_post mc) Hp) as H2.
  rewrite Hm in H1. rewrite Hone in H2.
  destruct H1 as (_ & out & Ho & Hr). rewrite H2 in Ho. injection Ho as <-.
  rewrite Hr.
  destruct (completed_search_some _ _ Hm) as (_ & Htext & Hg & _).
  rewrite Htext, Hg. cbn [expand group_of lookup Nat.eqb].
  rewrite expand_literal. reflexivity.
Qed.

End CompletedFacts.
(** ** Missing documents and the confirmation gate *)

(** C8.  When a document that [prompt], [state] or [phase] requires is
    absent, the operation returns normally, leaves every file as it was and
    its only effect is the printed warning: nothing is written. *)
Theorem missing_document_aborts (f : files) (stdin : option string) (args : command) :
  required_missing args f = true ->
  main f stdin args = Outcome None f [Print (missing_warning args)]
  /\ existsb is_write (trace (main f stdin args)) = false.
Proof.
  destruct f as [c s p d]; destruct args; simpl; try discriminate.
  - destruct c, s; simpl; intros H; try discriminate; auto.
  - destruct s; simpl; intros H; try discriminate; auto.
  - destruct c; simpl; intros H; try discriminate; auto.
Qed.

Lemma missing_document_aborts_witness :
  main (Files None (Some state_template) (Some "old prompt") true) None (CmdPrompt None)
  = Outcome None (Files None (Some state_template) (Some "old prompt") true)
      [Print ContextOrStateNotFound]
  /\ existsb is_write
       (trace (main (Files None (Some state_template) (Some "old prompt") true)
                    None (CmdPrompt None))) = false.
Proof.
  apply (missing_document_aborts
           (Files None (Some state_template) (Some "old prompt") true)
           None (CmdPrompt None)).
  reflexivity.
Defined.

(** [s.lower() == "y"] holds for exactly two answers. *)
Lemma lower_char_y (c : ascii) :
  lower_char c = "y"%char -> c = "y"%char \/ c = "Y"%char.
Proof.
  destruct c as [[] [] [] [] [] [] [] []]; vm_compute; intros H;
    try discriminate H; auto.
Qed.

Lemma lower_is_y (s : string) : lower s = "y" <-> s = "y" \/ s = "Y".
Proof.
  split.
  - destruct s as [|c [|c' s']]; simpl; intros H; try discriminate H.
    injection H as H. apply lower_char_y in H. destruct H; subst; auto.
  - intros [-> | ->]; reflexivity.
Qed.

(** C7, as stated, fails: the answer [Y] is other than [y], and [init]
    overwrites the three existing documents. *)
Lemma init_uppercase_answer_overwrites :
  let f := Files (Some "my context") (Some "my state") (Some "my prompt") true in
  spec_declines "Y"
  /\ fs (init f (Some "Y") "P" "d" "3" "I") <> f
  /\ existsb is_write (trace (init f (Some "Y") "P" "d" "3" "I")) = true.
Proof.
  cbv zeta. split; [ discriminate | split; [ | reflexivity ] ].
  intros H. apply (f_equal context_file) in H. vm_compute in H. discriminate H.
Qed.

(** C7, amended.  With all three documents present, an answer other than
    [y] and [Y] (the answer is lower-cased before it is compared) makes [init]
    print its message and return: the files are as before and nothing is
    created or written. *)
Theorem init_declined_touches_nothing
  (f : files) (answer project_name description phases initial_phase : string) :
  exists_ (context_file f) = true ->
  exists_ (state_file f) = true ->
  exists_ (prompt_file f) = true ->
  answer <> "y" -> answer <> "Y" ->
  init f (Some answer) project_name description phases initial_phase
  = Outcome None f [Ask; Print InitCanceled].
Proof.
  intros Hc Hs Hp Hy HY. unfold init. rewrite Hc. simpl.
  destruct (String.eqb (lower answer) "y") eqn:E; [ | reflexivity ].
  apply String.eqb_eq, lower_is_y in E. tauto.
Qed.

Lemma init_declined_touches_nothing_witness :
  init (Files (Some "my context") (Some "my state") (Some "my prompt") true)
       (Some "n") "P" "d" "3" "I"
  = Outcome None (Files (Some "my context") (Some "my state") (Some "my prompt") true)
      [Ask; Print InitCanceled].
Proof.
  apply (init_declined_touches_nothing
           (Files (Some "my context") (Some "my state") (Some "my prompt") true)
           "n" "P" "d" "3" "I");
    solve [ reflexivity | discriminate ].
Defined.

(** ** Reset *)

(** C5.  Two resets in a row, with no other argument, on an existing state
    document: both return normally and write the same text, so the document
    after the second is the document after the first. *)
Theorem reset_twice_same_document (f : files) (old : string) :
  state_file f = Some old ->
  let o1 := update_state f None None None None None true in
  let o2 := update_state (fs o1) None None None None None true in
  raised o1 = None /\ raised o2 = None
  /\ state_file (fs o1) = Some reset_template
  /\ state_file (fs o2) = state_file (fs o1)
  /\ fs o2 = fs o1
  /\ trace o2 = trace o1.
Proof.
  intros H. unfold update_state. rewrite H. simpl.
  repeat split; reflexivity.
Qed.

Lemma reset_twice_same_document_witness :
  let f := Files (Some "c") (Some state_template) None true in
  let o1 := update_state f None None None None None true in
  let o2 := update_state (fs o1) None None None None None true in
  raised o1 = None /\ raised o2 = None
  /\ state_file (fs o1) = Some reset_template
  /\ state_file (fs o2) = state_file (fs o1)
  /\ fs o2 = fs o1
  /\ trace o2 = trace o1.
Proof.
  apply (reset_twice_same_document
           (Files (Some "c") (Some state_template) None true) state_template).
  reflexivity.
Defined.

(** C2, as stated, fails: [reset] together with [--completed] writes the
    reset template with one more bullet in it. *)
Lemma reset_with_completed_is_not_template :
  update_state_text state_template (Some "done") None None None None true
  <> spec_reset_text (Some "done") None None None None
  /\ option_map completed_tasks
       (update_state_text state_template (Some "done") None None None None true)
     = Some ["Initialize phase: done"; "Previous phase completion"].
Proof.
  split; [ | vm_compute; reflexivity ].
  intros H. apply (f_equal (option_map String.length)) in H.
  vm_compute in H. discriminate H.
Qed.

(** C2, amended.  Under [reset] the text read from the document is dropped:
    what is written is what the same call without [reset] writes on the reset
    template, so it does not depend on the old document; and it is the reset
    template itself when neither a completed task nor a next task is given
    (criteria, files and integration alone change nothing). *)
Theorem reset_replaces_document
  (f : files) (old : string)
  (task_completed next_task criteria files integration : option string) :
  state_file f = Some old ->
  update_state_text old task_completed next_task criteria files integration true
  = update_state_text reset_template task_completed next_task criteria files
                      integration false
  /\ (truthy task_completed = false -> truthy next_task = false ->
      update_state f task_completed next_task criteria files integration true
      = Outcome None (write StateDoc reset_template f)
          [Write StateDoc reset_template; Print (UpdatedState true None None)]).
Proof.
  intros H. split; [ reflexivity | ].
  intros Hc Hn. unfold update_state, update_state_text. rewrite H, Hc, Hn.
  destruct task_completed as [[|]|], next_task as [[|]|];
    try discriminate Hc; try discriminate Hn; reflexivity.
Qed.

Lemma reset_replaces_document_witness :
  update_state_text state_template None None (Some "c") (Some "f") None true
  = update_state_text reset_template None None (Some "c") (Some "f") None false
  /\ (truthy None = false -> truthy None = false ->
      update_state (Files None (Some state_template) None true)
                   None None (Some "c") (Some "f") None true
      = Outcome None (write StateDoc reset_template (Files None (Some state_template) None true))
          [Write StateDoc reset_template; Print (UpdatedState true None None)]).
Proof.
  apply (reset_replaces_document (Files None (Some state_template) None true)
           state_template None None (Some "c") (Some "f") None).
  reflexivity.
Defined.

(** ** The prompt is a function of the context and the state *)

(** C9.  Two runs of [update_prompt] on file systems with the same context
    text and the same state text, with the same focus, end the same way and
    produce the same events, so they write the same prompt text; the prompt
    file that was there before plays no part.  When the run returns, the
    prompt file holds [prompt_text] of the two documents. *)
Theorem prompt_depends_on_context_and_state
  (f1 f2 : files) (context state : string) (custom_focus : option string) :
  context_file f1 = Some context -> context_file f2 = Some context ->
  state_file f1 = Some state -> state_file f2 = Some state ->
  let o1 := update_prompt f1 custom_focus in
  let o2 := update_prompt f2 custom_focus in
  raised o1 = raised o2 /\ trace o1 = trace o2
  /\ (raised o1 = None ->
      prompt_file (fs o1) = prompt_text context state custom_focus
      /\ prompt_file (fs o2) = prompt_text context state custom_focus).
Proof.
  intros Hc1 Hc2 Hs1 Hs2. unfold update_prompt.
  rewrite Hc1, Hc2, Hs1, Hs2.
  destruct (prompt_text context state custom_focus); simpl.
  - repeat split; reflexivity.
  - repeat split; try reflexivity; discriminate.
Qed.

Lemma prompt_depends_on_context_and_state_witness :
  let f1 := Files (Some (context_template "d" "3" "I")) (Some state_template) None true in
  let f2 := Files (Some (context_template "d" "3" "I")) (Some state_template)
                  (Some "an old prompt") true in
  let o1 := update_prompt f1 (Some "focus") in
  let o2 := update_prompt f2 (Some "focus") in
  raised o1 = raised o2 /\ trace o1 = trace o2
  /\ (raised o1 = None ->
      prompt_file (fs o1)
      = prompt_text (context_template "d" "3" "I") state_template (Some "focus")
      /\ prompt_file (fs o2)
         = prompt_text (context_template "d" "3" "I") state_template (Some "focus")).
Proof.
  apply (prompt_depends_on_context_and_state
           (Files (Some (context_template "d" "3" "I")) (Some state_template) None true)
           (Files (Some (context_template "d" "3" "I")) (Some state_template)
                  (Some "an old prompt") true)
           (context_template "d" "3" "I") state_template (Some "focus"));
    reflexivity.
Defined.

(** ** Replacement of keyed lines, phase header and progress value *)

Lemma replace_field_eq (f : field) (value text : string) :
  replace_field f value text = re_sub (field_re f) (field_line f value) text.
Proof. destruct f; reflexivity. Qed.

Lemma field_line_no_backslash (f : field) (value : string) :
  has_char "\" value = false -> has_char "\" (field_line f value) = false.
Proof.
  intros H. destruct f; unfold field_line;
    rewrite !has_char_append, H; reflexivity.
Qed.

Lemma field_re_free (f : field) : bos_free (field_re f) = true.
Proof. destruct f; reflexivity. Qed.

Lemma field_re_nonempty (f : field) (n : nat) (s t : string) (cs : captures) :
  match_at n (field_re f) s = Some (t, cs) -> t <> s.
Proof. destruct f; apply seq_lit_nonempty. Qed.



(** C1, as stated, fails: a later occurrence of the pattern is rewritten as
    well.  A context document whose requirements mention a progress figure,
    and a state document with the keyed line twice. *)
Lemma later_occurrences_are_rewritten :
  let context :=
    "## Current Phase: 1/3 - Init" ++ LF ++ "Progress: 0% complete" ++ LF
    ++ "## Technical Requirements" ++ LF
    ++ "- Progress: report 100% of failures" ++ LF in
  let state :=
    "- CURRENT TASK: a" ++ LF ++ "- CURRENT TASK: b" ++ LF in
  update_phase_text context None (Some "50")
  = Some ("## Current Phase: 1/3 - Init" ++ LF ++ "Progress: 50% complete" ++ LF
          ++ "## Technical Requirements" ++ LF
          ++ "- Progress: 50% of failures" ++ LF)
  /\ spec_replace_first ProgressValue "50" context
     = Some ("## Current Phase: 1/3 - Init" ++ LF ++ "Progress: 50% complete" ++ LF
             ++ "## Technical Requirements" ++ LF
             ++ "- Progress: report 100% of failures" ++ LF)
  /\ update_phase_text context None (Some "50")
     <> spec_replace_first ProgressValue "50" context
  /\ update_state_text state None (Some "Y") None None None false
     = Some ("- CURRENT TASK: Y" ++ LF ++ "- CURRENT TASK: Y" ++ LF)
  /\ spec_replace_first CurrentTask "Y" state
     = Some ("- CURRENT TASK: Y" ++ LF ++ "- CURRENT TASK: b" ++ LF)
  /\ update_state_text state None (Some "Y") None None None false
     <> spec_replace_first CurrentTask "Y" state.
Proof.
  cbv zeta. repeat split; try (vm_compute; reflexivity);
    intros H; vm_compute in H; discriminate H.
Qed.

(** [re.sub] for one field and a value without backslash, by the leftmost
    match of the pattern. *)
Lemma field_sub_by_search (f : field) (value text : string) :
  has_char "\" value = false ->
  match re_search (field_re f) text with
  | None => re_sub (field_re f) (field_line f value) text = Some text
  | Some m =>
      text = m_pre m ++ m_text m ++ m_post m
      /\ exists out,
          re_sub (field_re f) (field_line f value) (m_post m) = Some out
          /\ re_sub (field_re f) (field_line f value) text
             = Some (m_pre m
                     ++ expand (literal (field_line f value)) (m_text m) (m_groups m)
                     ++ out)
  end.
Proof.
  intros Hv.
  apply (re_sub_by_search (field_re f) (field_re_free f) (field_re_nonempty f)).
  apply parse_template_literal, field_line_no_backslash, Hv.
Qed.

(** On a document where the pattern occurs once, the replacement is the
    one the specification describes. *)
Lemma single_match_rewritten_alone (f : field) (value text : string) (m : match_obj) :
  has_char "\" value = false ->
  re_search (field_re f) text = Some m ->
  re_search (field_re f) (m_post m) = None ->
  replace_field f value text = spec_replace_first f value text.
Proof.
  intros Hv Hm Hone.
  pose proof (field_sub_by_search f value text Hv) as H1.
  pose proof (field_sub_by_search f value (m_post m) Hv) as H2.
  unfold spec_replace_first. rewrite replace_field_eq.
  rewrite Hm in H1 |- *. rewrite Hone in H2.
  destruct H1 as (_ & out & Ho & H1). rewrite H2 in Ho. injection Ho as <-.
  rewrite H1, expand_literal. reflexivity.
Qed.

(** C1, amended.  Each of the six replacements rewrites every match of its
    pattern, from the left: when the pattern does not occur the text is
    unchanged; otherwise the text before the first match is kept, the match
    is replaced by the new line (the value has no backslash), and the text
    after the match is rewritten by the same replacement.  So all text
    outside the matches is kept, and a later occurrence is rewritten too. *)
Theorem replacement_rewrites_every_match (f : field) (value text : string) :
  has_char "\" value = false ->
  match re_search (field_re f) text with
  | None => replace_field f value text = Some text
  | Some m =>
      text = m_pre m ++ m_text m ++ m_post m
      /\ exists rest,
          replace_field f value (m_post m) = Some rest
          /\ replace_field f value text
             = Some (m_pre m ++ field_line f value ++ rest)
  end.
Proof.
  intros Hv. pose proof (field_sub_by_search f value text Hv) as H.
  destruct (re_search (field_re f) text) as [m|].
  - destruct H as (Hs & out & Ho & Hr). split; [ exact Hs | ].
    exists out. rewrite !replace_field_eq. split; [ exact Ho | ].
    rewrite Hr, expand_literal. reflexivity.
  - rewrite replace_field_eq. exact H.
Qed.

Lemma replacement_rewrites_every_match_witness :
  match re_search (field_re CurrentTask) state_template with
  | None => replace_field CurrentTask "Write the parser" state_template
            = Some state_template
  | Some m =>
      state_template = m_pre m ++ m_text m ++ m_post m
      /\ exists rest,
          replace_field CurrentTask "Write the parser" (m_post m) = Some rest
          /\ replace_field CurrentTask "Write the parser" state_template
             = Some (m_pre m ++ field_line CurrentTask "Write the parser" ++ rest)
  end.
Proof.
  apply (replacement_rewrites_every_match CurrentTask "Write the parser" state_template).
  reflexivity.
Defined.

(** ** Extraction for the prompt *)

(** [progress] and the phase label come from one match object. *)
Lemma progress_only_from_phase_match (context p : string) :
  progress context = Some p ->
  exists m, phase_match context = Some m
    /\ p = strip (group m 2) /\ phase_info context = strip (group m 1).
Proof.
  unfold progress, phase_info.
  destruct (phase_match context) as [m|]; [ | discriminate ].
  intros H. injection H as <-. exists m. auto.
Qed.

Lemma render_fails_without_progress
  (f : files) (context state : string) (custom_focus : option string) :
  context_file f = Some context -> state_file f = Some state ->
  progress_follows context = false ->
  phase_match context = None
  /\ phase_info context = "Current phase"
  /\ progress context = None
  /\ update_prompt f custom_focus = Outcome (Some UnboundLocalError) f [].
Proof.
  intros Hc Hs Hp. apply phase_match_iff in Hp.
  unfold update_prompt, prompt_text, progress, phase_info.
  rewrite Hc, Hs, Hp. repeat split; reflexivity.
Qed.

(** C3, as stated, fails: a progress line without a percent sign is
    differently formatted, yet the combined pattern matches when a percent
    sign stands anywhere later in the document, because its groups are read
    under [re.DOTALL]; the phase label is then the one of the header and the
    prompt is rendered, with a progress value that runs over several
    lines. *)
Lemma later_percent_completes_match :
  let context :=
    "# Project Context" ++ LF ++ LF ++ "## Current Phase: 2/3 - Features" ++ LF
    ++ "Progress: 40 percent" ++ LF ++ LF
    ++ "## Technical Requirements" ++ LF ++ "- 99% uptime" ++ LF in
  let f := Files (Some context) (Some state_template) None true in
  contains "## Current Phase: " context = true
  /\ has_progress_line context = false
  /\ phase_match context <> None
  /\ phase_info context = "2/3 - Features"
  /\ progress context
     = Some ("40 percent" ++ LF ++ LF ++ "## Technical Requirements" ++ LF ++ "- 99")
  /\ raised (update_prompt f None) = None
  /\ existsb is_write (trace (update_prompt f None)) = true.
Proof.
  cbv zeta. repeat split; try (vm_compute; reflexivity).
  intros H. vm_compute in H. discriminate H.
Qed.

(** C3, amended.  The progress value is bound only when the combined
    pattern ([## Current Phase: (.*?)\nProgress: (.*?)%]) matches.  For a
    context document that has the phase header but in which no line start
    [Progress: ] with a percent sign somewhere after it follows the first
    header, the combined match fails, the phase label is the default
    [Current phase] although the header is there, and [update_prompt] ends in
    [UnboundLocalError] when it renders the prompt: nothing is written or
    printed.  By [phase_match_iff] these are all the documents on which the
    match fails. *)
Theorem missing_progress_line_fails_render
  (f : files) (context state : string) (custom_focus : option string) :
  context_file f = Some context -> state_file f = Some state ->
  contains "## Current Phase: " context = true ->
  progress_follows context = false ->
  phase_match context = None
  /\ phase_info context = "Current phase"
  /\ progress context = None
  /\ update_prompt f custom_focus = Outcome (Some UnboundLocalError) f [].
Proof.
  intros Hc Hs _ Hp. apply (render_fails_without_progress f context state); assumption.
Qed.

Lemma missing_progress_line_fails_render_witness :
  let context :=
    "# Project Context" ++ LF ++ LF ++ "## Current Phase: 2/3 - Features" ++ LF
    ++ "Progress 40 percent" ++ LF ++ LF ++ "## Architecture" ++ LF ++ "- Core" ++ LF in
  let f := Files (Some context) (Some state_template) (Some "old prompt") true in
  phase_match context = None
  /\ phase_info context = "Current phase"
  /\ progress context = None
  /\ update_prompt f None = Outcome (Some UnboundLocalError) f [].
Proof.
  cbv zeta.
  apply (missing_progress_line_fails_render
           (Files (Some ("# Project Context" ++ LF ++ LF
                         ++ "## Current Phase: 2/3 - Features" ++ LF
                         ++ "Progress 40 percent" ++ LF ++ LF
                         ++ "## Architecture" ++ LF ++ "- Core" ++ LF))
                  (Some state_template) (Some "old prompt") true)
           _ state_template None);
    reflexivity.
Defined.

(** C10.  The values that [update_prompt] reads from the four keyed lines
    (when no focus is given, for the current task), and the current task that
    [update_state] reads for a new Completed bullet, contain no hyphen.  Where
    a keyed-line pattern matches, the value is the text that follows the
    first occurrence of the key prefix up to the first hyphen, line feed or
    end of the document, stripped: a value with a hyphen is cut there. *)
Theorem keyed_values_stop_at_hyphen (state : string) :
  has_char "-" (current_task state None) = false
  /\ has_char "-" (completion_criteria state) = false
  /\ has_char "-" (working_files state) = false
  /\ has_char "-" (integration_points state) = false
  /\ has_char "-" (keyed_value task_re "implementation" state) = false
  /\ (forall task_completed,
        add_completed task_completed state
        = re_sub completed_pattern
            ("\1- " ++ keyed_value task_re "implementation" state ++ ": "
             ++ task_completed ++ LF) state)
  /\ (forall key default m,
        re_search (keyed_re key) state = Some m ->
        state = m_pre m ++ ("- " ++ key ++ ": ") ++ group m 1 ++ m_post m
        /\ has_char "-" (group m 1) = false
        /\ has_char "010" (group m 1) = false
        /\ stops (m_post m) = true
        /\ keyed_value (keyed_re key) default state = strip (group m 1)).
Proof.
  repeat split; try (apply keyed_value_no_hyphen; reflexivity);
    try (apply (keyed_search_some _ _ _ H)).
  unfold keyed_value. rewrite H. reflexivity.
Qed.

Lemma keyed_values_stop_at_hyphen_witness :
  let state :=
    "## High Priority" ++ LF ++ "- CURRENT TASK: Set up CI-pipeline" ++ LF
    ++ "- WORKING FILES: ci.yml" ++ LF ++ LF ++ "## Completed" ++ LF ++ "- A" ++ LF in
  has_char "-" (current_task state None) = false
  /\ current_task state None = "Set up CI"
  /\ add_completed "done X" state
     = Some ("## High Priority" ++ LF ++ "- CURRENT TASK: Set up CI-pipeline" ++ LF
             ++ "- WORKING FILES: ci.yml" ++ LF ++ LF ++ "## Completed" ++ LF
             ++ "- Set up CI: done X" ++ LF ++ "- A" ++ LF).
Proof.
  cbv zeta.
  destruct (keyed_values_stop_at_hyphen
              ("## High Priority" ++ LF ++ "- CURRENT TASK: Set up CI-pipeline" ++ LF
               ++ "- WORKING FILES: ci.yml" ++ LF ++ LF ++ "## Completed" ++ LF
               ++ "- A" ++ LF))
    as (H1 & _ & _ & _ & _ & H6 & H7).
  split; [ exact H1 | ]. split.
  - apply (H7 "CURRENT TASK" "implementation"
              (MatchObj ("## High Priority" ++ LF)
                        "- CURRENT TASK: Set up CI"
                        ("-pipeline" ++ LF ++ "- WORKING FILES: ci.yml" ++ LF ++ LF
                         ++ "## Completed" ++ LF ++ "- A" ++ LF)
                        [(1, "Set up CI")])).
    reflexivity.
  - rewrite H6. reflexivity.
Defined.

(** ** The Completed section *)

(** C4, as stated, fails: the current task is read only up to its first
    hyphen, so the new bullet does not carry the CURRENT TASK value. *)
Lemma hyphenated_task_is_cut :
  let state :=
    "## High Priority" ++ LF ++ "- CURRENT TASK: Set up CI-pipeline" ++ LF ++ LF
    ++ "## Completed" ++ LF ++ "- A" ++ LF ++ "- B" ++ LF in
  line_value "CURRENT TASK" state = Some "Set up CI-pipeline"
  /\ completed_tasks state = ["A"; "B"]
  /\ update_state_text state (Some "done X") None None None None false
     = Some ("## High Priority" ++ LF ++ "- CURRENT TASK: Set up CI-pipeline" ++ LF ++ LF
             ++ "## Completed" ++ LF ++ "- Set up CI: done X" ++ LF
             ++ "- A" ++ LF ++ "- B" ++ LF)
  /\ option_map completed_tasks
       (update_state_text state (Some "done X") None None None None false)
     = Some ["Set up CI: done X"; "A"; "B"]
  /\ option_map completed_tasks
       (update_state_text state (Some "done X") None None None None false)
     <> Some (spec_completed_section "Set up CI-pipeline" "done X" ["A"; "B"]).
Proof.
  cbv zeta. repeat split; try (vm_compute; reflexivity).
  intros H. vm_compute in H. discriminate H.
Qed.

Lemma update_state_completed_only (a : ascii) (v state_content : string) :
  update_state_text state_content (Some (String a v)) None None None None false
  = add_completed (String a v) state_content.
Proof.
  unfold update_state_text, when, bind.
  destruct (add_completed (String a v) state_content); reflexivity.
Qed.

(** C4, amended.  Let [T] be the current task as [update_state] reads it
    (the CURRENT TASK value up to its first hyphen or line end, stripped, or
    [implementation]).  For a state document with one [## Completed] heading
    line whose section starts with a bullet, and a completed-task text of one
    line, with no backslash in it nor in [T], [update_state] writes the
    document with the line [- T: task_completed] inserted right after the
    heading and everything else as it was; read back, the Completed section
    has the new entry first and the old entries after it, unchanged. *)
Theorem completed_entry_is_prepended
  (f : files) (state task_completed : string) (mc : match_obj) :
  state_file f = Some state ->
  re_search completed_pattern state = Some mc ->
  re_search completed_pattern (m_post mc) = None ->
  startswith "- " (m_post mc) = true ->
  has_char "\" (keyed_value task_re "implementation" state) = false ->
  task_completed <> "" ->
  has_char "\" task_completed = false ->
  has_char "010" task_completed = false ->
  let T := keyed_value task_re "implementation" state in
  let new :=
    m_pre mc ++ ("## Completed" ++ LF)
    ++ ("- " ++ T ++ ": " ++ task_completed ++ LF) ++ m_post mc in
  state = m_pre mc ++ ("## Completed" ++ LF) ++ m_post mc
  /\ update_state f (Some task_completed) None None None None false
     = Outcome None (write StateDoc new f)
         [Write StateDoc new; Print (UpdatedState false (Some task_completed) None)]
  /\ completed_tasks new
     = strip (T ++ ": " ++ task_completed) :: completed_tasks state.
Proof.
  intros Hf Hm Hone Hb Ht Hne Hc Hl T new.
  destruct (completed_search_some _ _ Hm) as (Hs & _ & _ & Hmin).
  split; [ exact Hs | ]. split.
  - unfold update_state. rewrite Hf.
    destruct task_completed as [|a v]; [ congruence | ].
    rewrite update_state_completed_only.
    rewrite (add_completed_text _ _ _ Hm Hone Ht Hc). reflexivity.
  - destruct (startswith_bullet _ Hb) as [post Hp].
    assert (HT : has_char "010" (T ++ ": " ++ task_completed) = false).
    { pose proof (keyed_value_no_newline "CURRENT TASK" "implementation" state eq_refl)
        as HT0.
      change (has_char "010" T = false) in HT0.
      rewrite !has_char_append, HT0, Hl. reflexivity. }
    unfold new. rewrite Hs at 1.
    rewrite !completed_tasks_at by (apply Hmin).
    rewrite Hp.
    assert (Hshape :
              ("- " ++ T ++ ": " ++ task_completed ++ LF) ++ "- " ++ post
              = ("- " ++ (T ++ ": " ++ task_completed)) ++ LF ++ "- " ++ post)
      by (rewrite !append_append; reflexivity).
    rewrite Hshape, section_body_line; [ | exact HT | reflexivity ].
    change (section_body ("- " ++ post)) with ("- " ++ section_body post).
    rewrite <- bullets_cons by exact HT.
    rewrite !append_append. reflexivity.
Qed.

Lemma completed_entry_is_prepended_witness :
  let state :=
    "## High Priority" ++ LF ++ "- CURRENT TASK: T" ++ LF ++ LF
    ++ "## Completed" ++ LF ++ "- A" ++ LF ++ "- B" ++ LF ++ LF
    ++ "## Next Tasks" ++ LF ++ "1. N" ++ LF in
  let new :=
    "## High Priority" ++ LF ++ "- CURRENT TASK: T" ++ LF ++ LF
    ++ "## Completed" ++ LF ++ "- T: done X" ++ LF ++ "- A" ++ LF ++ "- B" ++ LF ++ LF
    ++ "## Next Tasks" ++ LF ++ "1. N" ++ LF in
  let f := Files None (Some state) None true in
  update_state f (Some "done X") None None None None false
  = Outcome None (write StateDoc new f)
      [Write StateDoc new; Print (UpdatedState false (Some "done X") None)]
  /\ completed_tasks state = ["A"; "B"]
  /\ completed_tasks new = ["T: done X"; "A"; "B"].
Proof.
  cbv zeta.
  destruct (completed_entry_is_prepended
              (Files None
                 (Some ("## High Priority" ++ LF ++ "- CURRENT TASK: T" ++ LF ++ LF
                        ++ "## Completed" ++ LF ++ "- A" ++ LF ++ "- B" ++ LF ++ LF
                        ++ "## Next Tasks" ++ LF ++ "1. N" ++ LF)) None true)
              ("## High Priority" ++ LF ++ "- CURRENT TASK: T" ++ LF ++ LF
               ++ "## Completed" ++ LF ++ "- A" ++ LF ++ "- B" ++ LF ++ LF
               ++ "## Next Tasks" ++ LF ++ "1. N" ++ LF)
              "done X"
              (MatchObj ("## High Priority" ++ LF ++ "- CURRENT TASK: T" ++ LF ++ LF)
                        ("## Completed" ++ LF)
                        ("- A" ++ LF ++ "- B" ++ LF ++ LF
                         ++ "## Next Tasks" ++ LF ++ "1. N" ++ LF)
                        [(1, "## Completed" ++ LF)])
              eq_refl eq_refl eq_refl eq_refl eq_refl
              ltac:(discriminate) eq_refl eq_refl)
    as (_ & H2 & H3).
  split; [ exact H2 | ]. split; [ reflexivity | exact H3 ].
Defined.

(** ** Bounded summaries *)



(** * Further properties of the operations *)

(** ** What the commands touch *)

(** X1.  A command other than [init] changes no document but its own (the
    prompt for [prompt], the state for [state], the context for [phase],
    none for the help), creates no directory, and its trace has no write to
    another document. *)
Theorem commands_write_only_their_document
  (f : files) (stdin : option string) (args : command) (d : doc) :
  is_init args = false ->
  target args <> Some d ->
  file_of d (fs (main f stdin args)) = file_of d f
  /\ project_dir (fs (main f stdin args)) = project_dir f
  /\ existsb (touches_other (target args)) (trace (main f stdin args)) = false.
Proof.
  intros Hi Ht. destruct args; try discriminate Hi; cbn [main target] in *.
  - unfold update_prompt.
    destruct (context_file f) as [c|], (state_file f) as [s|]; try (repeat split; reflexivity).
    destruct (prompt_text c s focus); [ | repeat split; reflexivity ].
    destruct d; try congruence; repeat split; reflexivity.
  - unfold update_state.
    destruct (state_file f) as [s|]; [ | repeat split; reflexivity ].
    destruct (update_state_text s completed next criteria files0 integration reset);
      [ | repeat split; reflexivity ].
    destruct d; try congruence; repeat split; reflexivity.
  - unfold update_phase.
    destruct (context_file f) as [c|]; [ | repeat split; reflexivity ].
    destruct (update_phase_text c new progress0); [ | repeat split; reflexivity ].
    destruct d; try congruence; repeat split; reflexivity.
  - repeat split; reflexivity.
Qed.

Lemma commands_write_only_their_document_witness :
  let f := Files (Some (context_template "d" "3" "I")) (Some state_template)
                 (Some "old prompt") true in
  let args := CmdState (Some "done") (Some "next") None None None false in
  file_of PromptDoc (fs (main f None args)) = Some "old prompt"
  /\ project_dir (fs (main f None args)) = true
  /\ existsb (touches_other (target args)) (trace (main f None args)) = false.
Proof.
  cbv zeta.
  apply (commands_write_only_their_document
           (Files (Some (context_template "d" "3" "I")) (Some state_template)
                  (Some "old prompt") true)
           None (CmdState (Some "done") (Some "next") None None None false) PromptDoc).
  - reflexivity.
  - discriminate.
Defined.



(** X3.  [update_prompt] is idempotent: a second run right after the first
    ends the same way, produces the same events and leaves the files of the
    first run. *)
Theorem update_prompt_twice (f : files) (custom_focus : option string) :
  let o1 := update_prompt f custom_focus in
  let o2 := update_prompt (fs o1) custom_focus in
  fs o2 = fs o1 /\ raised o2 = raised o1 /\ trace o2 = trace o1.
Proof.
  cbv zeta. unfold update_prompt.
  destruct (context_file f) as [c|] eqn:Ec, (state_file f) as [s|] eqn:Es;
    cbn [fs]; try (rewrite Ec); try (rewrite Es); auto.
  destruct (prompt_text c s custom_focus) as [p|] eqn:Ep; cbn [fs write context_file state_file].
  - rewrite Ec, Es, Ep. repeat split; reflexivity.
  - rewrite Ec, Es, Ep. repeat split; reflexivity.
Qed.

(** ** The confirmation of [init] *)

(** X4.  [init] asks for confirmation exactly when at least one of the
    three files exists, whatever the others; and when it asks and the answer,
    lower-cased, is not [y], no file is changed or created (also the files
    that did not exist) and no directory is made. *)
Theorem init_confirmation_gate
  (f : files) (stdin : option string)
  (project_name description phases initial_phase : string) :
  existsb is_ask (trace (init f stdin project_name description phases initial_phase))
  = any_exists f
  /\ (forall answer,
        any_exists f = true -> stdin = Some answer -> lower answer <> "y" ->
        init f stdin project_name description phases initial_phase
        = Outcome None f [Ask; Print InitCanceled]).
Proof.
  unfold init, init_write, any_exists.
  destruct (exists_ (context_file f) || exists_ (state_file f)
            || exists_ (prompt_file f)) eqn:E.
  - split.
    + destruct stdin as [confirm|]; [ | reflexivity ].
      destruct (negb (String.eqb (lower confirm) "y")); reflexivity.
    + intros answer _ -> Hn.
      destruct (String.eqb_spec (lower answer) "y"); [ contradiction | reflexivity ].
  - split; [ reflexivity | discriminate ].
Qed.

Lemma init_confirmation_gate_witness :
  let f := Files None None (Some "a prompt kept by hand") true in
  init f (Some "no") "P" "d" "3" "I" = Outcome None f [Ask; Print InitCanceled].
Proof.
  cbv zeta.
  destruct (init_confirmation_gate
              (Files None None (Some "a prompt kept by hand") true)
              (Some "no") "P" "d" "3" "I") as [_ H].
  apply (H "no"); [ reflexivity | reflexivity | discriminate ].
Defined.

(** ** When [update_prompt] succeeds *)


(** X5.  With both documents present, [update_prompt] returns normally
    exactly when a progress line follows the phase header of the context
    document; it then writes the prompt built from the two documents and
    prints the task, and otherwise it raises and writes nothing. *)
Theorem update_prompt_succeeds_iff
  (f : files) (context state : string) (custom_focus : option string) :
  context_file f = Some context -> state_file f = Some state ->
  (raised (update_prompt f custom_focus) = None <-> progress_follows context = true)
  /\ (progress_follows context = true ->
      exists prompt,
        prompt_text context state custom_focus = Some prompt
        /\ update_prompt f custom_focus
           = Outcome None (write PromptDoc prompt f)
               [Write PromptDoc prompt;
                Print (UpdatedPrompt (current_task state custom_focus))]).
Proof.
  intros Hc Hs. unfold update_prompt, prompt_text, progress. rewrite Hc, Hs.
  pose proof (phase_match_iff context) as Hiff.
  destruct (phase_match context) as [m|]; destruct (progress_follows context).
  - split; [ split; reflexivity | ]. intros _. eexists. split; reflexivity.
  - exfalso. destruct Hiff as [_ H]. specialize (H eq_refl). discriminate H.
  - exfalso. destruct Hiff as [H _]. specialize (H eq_refl). discriminate H.
  - split; [ split; discriminate | discriminate ].
Qed.

Lemma update_prompt_succeeds_iff_witness :
  let context := "## Current Phase: 2/3 - Build" ++ LF ++ "Progress: 30% complete" ++ LF in
  let f := Files (Some context) (Some state_template) None true in
  (raised (update_prompt f None) = None <-> progress_follows context = true)
  /\ (progress_follows context = true ->
      exists prompt,
        prompt_text context state_template None = Some prompt
        /\ update_prompt f None
           = Outcome None (write PromptDoc prompt f)
               [Write PromptDoc prompt;
                Print (UpdatedPrompt (current_task state_template None))]).
Proof.
  cbv zeta.
  apply (update_prompt_succeeds_iff
           (Files (Some ("## Current Phase: 2/3 - Build" ++ LF
                         ++ "Progress: 30% complete" ++ LF))
                  (Some state_template) None true)
           _ state_template None); reflexivity.
Defined.



(** ** Defaults and silent no-ops *)

Section AbsentLiteral.

Lemma contains_eq (sub s : string) :
  contains sub s =
  match strip_prefix sub s with
  | Some _ => true
  | None =>
      match s with
      | String _ s' => contains sub s'
      | EmptyString => false
      end
  end.
Proof. destruct s; reflexivity. Qed.

(** A pattern that starts with a literal finds nothing in a text that does
    not contain the literal. *)
Lemma search_needs_literal (n : nat) (l : string) (r : re) (pre s : string) :
  contains l s = false -> search_from n (Seq (Lit l) r) pre s = None.
Proof.
  revert pre. induction s as [|a s IH]; intros pre H;
    rewrite contains_eq in H; rewrite search_from_eq;
    unfold match_at; cbn [run];
    destruct (strip_prefix l _); try discriminate H; auto.
Qed.

Lemma completed_search_absent (n : nat) (pre s : string) :
  contains ("## Completed" ++ LF) s = false ->
  search_from n (Grp 1 (Lit ("## Completed" ++ LF))) pre s = None.
Proof.
  revert pre. induction s as [|a s IH]; intros pre H;
    rewrite contains_eq in H; rewrite search_from_eq;
    change (Grp 1 (Lit ("## Completed" ++ LF))) with completed_pattern;
    rewrite completed_pattern_at;
    destruct (strip_prefix ("## Completed" ++ LF) _); try discriminate H; auto.
Qed.

Lemma after_none_contains (sub s : string) :
  after sub s = None -> contains sub s = false.
Proof.
  induction s as [|a s IH]; rewrite after_eq, contains_eq;
    destruct (strip_prefix sub _); try discriminate; auto.
Qed.


Lemma field_re_shape (f : field) :
  field_re f
  = Seq (Lit (field_prefix f))
        (Seq (Lazy CLine) (Lit (String (field_stop f) EmptyString))).
Proof. destruct f; reflexivity. Qed.

(** The shape of a text that a field pattern matches. *)
Lemma field_re_some (n : nat) (f : field) (s t : string) (cs : captures) :
  match_at n (field_re f) s = Some (t, cs) ->
  exists v, s = field_prefix f ++ v ++ String (field_stop f) t.
Proof.
  rewrite field_re_shape. unfold match_at. cbn [run].
  destruct (strip_prefix (field_prefix f) s) as [s1|] eqn:E1; [ | discriminate ].
  apply strip_prefix_some in E1. intros H.
  apply lazy_loop_some in H. destruct H as (v & t1 & -> & H & _).
  destruct (strip_prefix (String (field_stop f) "") t1) as [s2|] eqn:E2;
    [ | discriminate H ].
  apply strip_prefix_some in E2. injection H as -> _.
  exists v. rewrite E1, E2. reflexivity.
Qed.

Lemma field_search_none (f : field) (text : string) :
  field_can_match f text = false -> re_search (field_re f) text = None.
Proof.
  intros H. destruct (re_search (field_re f) text) as [m|] eqn:E; [ | reflexivity ].
  exfalso. unfold re_search in E. apply search_from_some in E.
  destruct E as (x & _ & Hs & Hm & _).
  apply field_re_some in Hm. destruct Hm as [v Hm].
  rewrite Hm in Hs. unfold field_can_match in H.
  rewrite Hs in H.
  destruct (after_append (field_prefix f) x (v ++ String (field_stop f) (m_post m)))
    as [z Hz].
  rewrite Hz in H. rewrite !has_char_append in H. simpl in H.
  rewrite Ascii.eqb_refl in H. simpl in H. rewrite !orb_true_r in H. discriminate H.
Qed.

End AbsentLiteral.

(** X7.  A field of the prompt whose section heading or key prefix does not
    occur in its document has its default: [Project] for the definition,
    [Initial architecture], [Modularity, Maintainability], [Current phase]
    with no progress value; [implementation], [Task complete],
    [relevant files], [related components]; empty completed and next-task
    summaries, [None identified] and [No recent decisions]. *)
Theorem absent_sections_give_defaults (context state : string) :
  (contains ("## Definition" ++ LF) context = false ->
   project_info context = "Project")
  /\ (contains ("## Architecture" ++ LF) context = false ->
      arch_info context = "Initial architecture")
  /\ (contains ("## Development Principles" ++ LF) context = false ->
      principles_info context = "Modularity, Maintainability")
  /\ (contains "## Current Phase: " context = false ->
      phase_info context = "Current phase" /\ progress context = None)
  /\ (contains "- CURRENT TASK: " state = false ->
      current_task state None = "implementation")
  /\ (contains "- COMPLETION CRITERIA: " state = false ->
      completion_criteria state = "Task complete")
  /\ (contains "- WORKING FILES: " state = false ->
      working_files state = "relevant files")
  /\ (contains "- INTEGRATION POINTS: " state = false ->
      integration_points state = "related components")
  /\ (contains ("## Completed" ++ LF) state = false -> completed_info state = "")
  /\ (contains ("## Next Tasks" ++ LF) state = false -> next_info state = "")
  /\ (contains ("## Challenges" ++ LF) state = false ->
      challenge_info state = "None identified")
  /\ (contains ("## Decisions" ++ LF) state = false ->
      decision_info state = "No recent decisions").
Proof.
  repeat match goal with |- _ /\ _ => split end; intros H.
  - unfold project_info, re_search, definition_re, section_re.
    rewrite search_needs_literal by exact H. reflexivity.
  - unfold arch_info, re_search, arch_re, section_re.
    rewrite search_needs_literal by exact H. reflexivity.
  - unfold principles_info, re_search, principles_re, section_re.
    rewrite search_needs_literal by exact H. reflexivity.
  - unfold phase_info, progress, phase_match, re_search, phase_re.
    rewrite search_needs_literal by exact H. split; reflexivity.
  - unfold current_task, keyed_value, re_search, task_re, keyed_re.
    rewrite search_needs_literal by exact H. reflexivity.
  - unfold completion_criteria, keyed_value, re_search, criteria_re, keyed_re.
    rewrite search_needs_literal by exact H. reflexivity.
  - unfold working_files, keyed_value, re_search, files_re, keyed_re.
    rewrite search_needs_literal by exact H. reflexivity.
  - unfold integration_points, keyed_value, re_search, integration_re, keyed_re.
    rewrite search_needs_literal by exact H. reflexivity.
  - unfold completed_info, completed_tasks, re_search, completed_re, section_re.
    rewrite search_needs_literal by exact H. reflexivity.
  - unfold next_info, next_tasks, re_search, next_re, section_re.
    rewrite search_needs_literal by exact H. reflexivity.
  - unfold challenge_info, challenges, re_search, challenge_re, section_re.
    rewrite search_needs_literal by exact H. reflexivity.
  - unfold decision_info, decisions, re_search, decision_re, section_re.
    rewrite search_needs_literal by exact H. reflexivity.
Qed.

Lemma absent_sections_give_defaults_witness :
  let context := "## Current Phase: 1/2 - Draft" ++ LF ++ "Progress: 5%" ++ LF in
  let state := "## Completed" ++ LF ++ "- Setup" ++ LF in
  arch_info context = "Initial architecture"
  /\ principles_info context = "Modularity, Maintainability"
  /\ project_info context = "Project"
  /\ current_task state None = "implementation"
  /\ next_info state = ""
  /\ challenge_info state = "None identified"
  /\ decision_info state = "No recent decisions".
Proof.
  cbv zeta.
  destruct (absent_sections_give_defaults
              ("## Current Phase: 1/2 - Draft" ++ LF ++ "Progress: 5%" ++ LF)
              ("## Completed" ++ LF ++ "- Setup" ++ LF))
    as (H1 & H2 & H3 & _ & H5 & _ & _ & _ & _ & H10 & H11 & H12).
  exact (conj (H2 eq_refl) (conj (H3 eq_refl) (conj (H1 eq_refl) (conj (H5 eq_refl)
           (conj (H10 eq_refl) (conj (H11 eq_refl) (H12 eq_refl))))))).
Defined.

(** X8.  A replacement whose pattern has nothing to match (the prefix does
    not occur, or no closing line feed, for the progress value no percent
    sign, comes after it, as for a keyed line that is the unterminated last
    line of the file) leaves the text as it is and raises nothing, for a
    value without backslash. *)
Theorem replacement_without_match_is_noop (f : field) (value text : string) :
  field_can_match f text = false ->
  has_char "\" value = false ->
  replace_field f value text = Some text.
Proof.
  intros Hm Hv. apply field_search_none in Hm.
  pose proof (field_sub_by_search f value text Hv) as H.
  rewrite Hm in H. rewrite replace_field_eq. exact H.
Qed.

Lemma replacement_without_match_is_noop_witness :
  replace_field CurrentTask "Write tests"
    ("## High Priority" ++ LF ++ "- CURRENT TASK: Draft")
  = Some ("## High Priority" ++ LF ++ "- CURRENT TASK: Draft").
Proof.
  apply (replacement_without_match_is_noop CurrentTask "Write tests"
           ("## High Priority" ++ LF ++ "- CURRENT TASK: Draft"));
    reflexivity.
Defined.

(** X9.  On a state document without a [## Completed] heading line,
    [update_state] with a completed task writes the document back unchanged:
    the note is lost, although the call returns normally and reports the task
    as completed. *)
Theorem completed_note_lost_without_heading
  (f : files) (state task_completed : string) :
  state_file f = Some state ->
  contains ("## Completed" ++ LF) state = false ->
  task_completed <> "" ->
  has_char "\" task_completed = false ->
  has_char "\" (keyed_value task_re "implementation" state) = false ->
  update_state f (Some task_completed) None None None None false
  = Outcome None f
      [Write StateDoc state; Print (UpdatedState false (Some task_completed) None)].
Proof.
  intros Hf Hc Hne Hv Ht.
  assert (Hl : has_char "\" (keyed_value task_re "implementation" state ++ ": "
                             ++ task_completed ++ LF) = false)
    by (rewrite !has_char_append, Ht, Hv; reflexivity).
  pose proof (re_sub_by_search completed_pattern eq_refl completed_pattern_nonempty
                _ _ state (parse_completed_template _ Hl)) as H.
  assert (Hs : re_search completed_pattern state = None)
    by (unfold re_search, completed_pattern;
        rewrite completed_search_absent by exact Hc; reflexivity).
  rewrite Hs in H.
  unfold update_state. rewrite Hf.
  destruct task_completed as [|a v]; [ congruence | ].
  rewrite update_state_completed_only. unfold add_completed.
  change ("\1- " ++ keyed_value task_re "implementation" state ++ ": "
          ++ String a v ++ LF)
    with ("\1- " ++ (keyed_value task_re "implementation" state ++ ": "
                     ++ String a v ++ LF)).
  rewrite H. destruct f as [c s p d]. simpl in Hf. subst s. reflexivity.
Qed.

Lemma completed_note_lost_without_heading_witness :
  let state := "## High Priority" ++ LF ++ "- CURRENT TASK: Parser" ++ LF ++ LF
               ++ "## Done" ++ LF ++ "- Lexer" ++ LF in
  let f := Files None (Some state) None true in
  update_state f (Some "finished") None None None None false
  = Outcome None f [Write StateDoc state; Print (UpdatedState false (Some "finished") None)].
Proof.
  cbv zeta.
  apply (completed_note_lost_without_heading
           (Files None
                  (Some ("## High Priority" ++ LF ++ "- CURRENT TASK: Parser" ++ LF ++ LF
                         ++ "## Done" ++ LF ++ "- Lexer" ++ LF)) None true)
           _ "finished");
    solve [ reflexivity | discriminate ].
Defined.

(** ** Exceptions of [update_state] and [update_phase] *)






(** ** Writing a keyed line and reading it back *)

Section KeyedRoundTrip.











End KeyedRoundTrip.





(** ** Sections *)

Section SectionBodies.

Lemma first_occurrence_min (p pre : string) :
  0 < String.length p ->
  first_occurrence p pre = true ->
  forall z x1 x2, pre = x1 ++ x2 -> x2 <> "" ->
    strip_prefix p (x2 ++ p ++ z) = None.
Proof.
  unfold first_occurrence. intros Hlen.
  induction pre as [|a pre IH]; intros H z x1 x2 Hx Hne.
  - destruct x1; [ simpl in Hx; congruence | discriminate Hx ].
  - change (String a pre ++ p) with (String a (pre ++ p)) in H.
    rewrite after_eq in H.
    destruct (strip_prefix p (String a (pre ++ p))) as [t|] eqn:E.
    + exfalso. destruct t; [ | discriminate H ].
      apply strip_prefix_some in E. apply (f_equal String.length) in E.
      simpl in E. rewrite !length_append in E. simpl in E. lia.
    + destruct x1 as [|b x1]; simpl in Hx.
      * subst x2.
        replace (String a pre ++ p ++ z) with ((String a pre ++ p) ++ z)
          by (rewrite append_append; reflexivity).
        apply (strip_prefix_longer p (String a pre ++ p) "" z).
        -- rewrite length_append. lia.
        -- rewrite append_empty_r. exact E.
      * injection Hx as _ Hx. apply (IH H z x1 x2 Hx Hne).
Qed.

Lemma first_heading_min (heading pre : string) :
  first_heading heading pre = true ->
  forall z x1 x2, pre = x1 ++ x2 -> x2 <> "" ->
    strip_prefix (heading_line heading) (x2 ++ heading_line heading ++ z) = None.
Proof.
  apply first_occurrence_min. unfold heading_line. simpl. lia.
Qed.

(** The body captured for a heading that first stands after [pre]. *)
Lemma section_text_at (heading pre rest : string) :
  first_heading heading pre = true ->
  section_text heading (pre ++ heading_line heading ++ rest)
  = Some (section_body rest).
Proof.
  intros Hf. unfold section_text, re_search.
  rewrite (search_from_finds _ (section_re heading) "" pre
             (heading_line heading ++ rest)
             (section_tail rest) [(1, section_body rest)]).
  - reflexivity.
  - intros x1 x2 Hx Hne. rewrite section_re_at.
    fold (heading_line heading).
    rewrite (first_heading_min _ _ Hf rest x1 x2 Hx Hne). reflexivity.
  - rewrite section_re_at. fold (heading_line heading).
    rewrite strip_prefix_append. reflexivity.
Qed.

Lemma heading_stop_inside (c : ascii) (b z : string) :
  contains (LF ++ "##") (String c b) = false ->
  heading_stop (String c b ++ (LF ++ "##") ++ z) = false.
Proof.
  intros H. rewrite contains_eq in H.
  change (String c b ++ (LF ++ "##") ++ z) with (String c (b ++ (LF ++ "##") ++ z)).
  unfold heading_stop. cbn [strip_prefix LF append] in *.
  destruct (Ascii.eqb "010" c); [ | reflexivity ].
  destruct b as [|c2 b]; [ reflexivity | ].
  cbn [strip_prefix append] in *.
  destruct (Ascii.eqb "#" c2); [ | reflexivity ].
  destruct b as [|c3 b]; [ reflexivity | ].
  cbn [strip_prefix append] in *.
  destruct (Ascii.eqb "#" c3); [ discriminate H | reflexivity ].
Qed.

Lemma contains_tail (sub : string) (c : ascii) (s : string) :
  contains sub (String c s) = false -> contains sub s = false.
Proof.
  intros H. rewrite contains_eq in H.
  destruct (strip_prefix sub (String c s)); [ discriminate H | exact H ].
Qed.

(** A body without [\n##] inside is captured whole, up to the next
    heading or to the end of the document. *)
Lemma section_body_until_heading (b z : string) :
  contains (LF ++ "##") b = false ->
  section_body (b ++ (LF ++ "##") ++ z) = b.
Proof.
  induction b as [|c b IH]; intros H; [ reflexivity | ].
  rewrite section_body_eq, (heading_stop_inside c b z H).
  change (String c b ++ (LF ++ "##") ++ z) with (String c (b ++ (LF ++ "##") ++ z)).
  cbn iota. rewrite IH; [ reflexivity | ]. apply (contains_tail _ c). exact H.
Qed.

Lemma heading_stop_inside_end (c : ascii) (b : string) :
  contains (LF ++ "##") (String c b) = false ->
  heading_stop (String c b) = false.
Proof.
  intros H. rewrite contains_eq in H. unfold heading_stop.
  destruct (strip_prefix (LF ++ "##") (String c b)); [ discriminate H | reflexivity ].
Qed.

Lemma section_body_until_end (b : string) :
  contains (LF ++ "##") b = false -> section_body b = b.
Proof.
  induction b as [|c b IH]; intros H; [ reflexivity | ].
  rewrite section_body_eq, (heading_stop_inside_end c b H).
  rewrite IH; [ reflexivity | ]. apply (contains_tail _ c). exact H.
Qed.

End SectionBodies.

Lemma completed_tasks_by_section (state : string) :
  completed_tasks state
  = match section_text "Completed" state with
    | Some body => bullets body
    | None => []
    end.
Proof.
  unfold completed_tasks, section_text, completed_re.
  destruct (re_search (section_re "Completed") state); reflexivity.
Qed.

Lemma challenges_by_section (state : string) :
  challenges state
  = match section_text "Challenges" state with
    | Some body => if negb (contains "None yet" body) then bullet_names body else []
    | None => []
    end.
Proof.
  unfold challenges, section_text, challenge_re.
  destruct (re_search (section_re "Challenges") state); reflexivity.
Qed.

(** X12.  The body of a section is the text between its heading line and
    the next line that starts with [##], or the end of the document: for a
    heading that first stands after [pre] and a body without [\n##] inside,
    the section pattern captures exactly the body, so nothing that comes
    after the next heading has any influence on the section. *)
Theorem section_is_text_up_to_next_heading (heading pre body : string) :
  first_heading heading pre = true ->
  contains (LF ++ "##") body = false ->
  section_text heading (pre ++ heading_line heading ++ body) = Some body
  /\ (forall z,
        section_text heading (pre ++ heading_line heading ++ body ++ (LF ++ "##") ++ z)
        = Some body)
  /\ (heading = "Completed" ->
      forall z,
        completed_tasks (pre ++ heading_line heading ++ body ++ (LF ++ "##") ++ z)
        = bullets body).
Proof.
  intros Hf Hb. split; [ | split ].
  - rewrite section_text_at by exact Hf.
    rewrite section_body_until_end by exact Hb. reflexivity.
  - intros z. rewrite section_text_at by exact Hf.
    rewrite section_body_until_heading by exact Hb. reflexivity.
  - intros -> z. rewrite completed_tasks_by_section.
    rewrite section_text_at by exact Hf.
    rewrite section_body_until_heading by exact Hb. reflexivity.
Qed.

Lemma section_is_text_up_to_next_heading_witness :
  completed_tasks
    (("# Development State" ++ LF ++ LF) ++ heading_line "Completed"
     ++ ("- Lexer" ++ LF ++ "- Parser" ++ LF)
     ++ (LF ++ "##") ++ (" Next Tasks" ++ LF ++ "- not a completed entry" ++ LF))
  = ["Lexer"; "Parser"].
Proof.
  exact (proj2 (proj2 (section_is_text_up_to_next_heading "Completed"
                         ("# Development State" ++ LF ++ LF)
                         ("- Lexer" ++ LF ++ "- Parser" ++ LF)
                         eq_refl eq_refl))
               eq_refl
               (" Next Tasks" ++ LF ++ "- not a completed entry" ++ LF)).
Defined.

(** X13.  The challenges summary of a Challenges section with body [body]:
    [None identified] when the body contains the text [None yet] anywhere,
    even beside other bullets, or has no bullet line; otherwise the bullet
    names joined by a comma and a space. *)
Theorem challenges_summary (pre body : string) :
  first_heading "Challenges" pre = true ->
  contains (LF ++ "##") body = false ->
  forall z,
    challenge_info (pre ++ heading_line "Challenges" ++ body ++ (LF ++ "##") ++ z)
    = if contains "None yet" body then "None identified"
      else match bullet_names body with
           | [] => "None identified"
           | l => join ", " l
           end.
Proof.
  intros Hf Hb z. unfold challenge_info. rewrite challenges_by_section.
  rewrite section_text_at by exact Hf.
  rewrite section_body_until_heading by exact Hb.
  destruct (contains "None yet" body); reflexivity.
Qed.

Lemma challenges_summary_witness :
  challenge_info
    (("## Completed" ++ LF ++ "- A" ++ LF ++ LF) ++ heading_line "Challenges"
     ++ ("- Slow tests: CI takes an hour" ++ LF ++ "- None yet for the parser" ++ LF)
     ++ (LF ++ "##") ++ (" Decisions" ++ LF ++ "- Use Rocq" ++ LF))
  = "None identified".
Proof.
  exact (challenges_summary ("## Completed" ++ LF ++ "- A" ++ LF ++ LF)
           ("- Slow tests: CI takes an hour" ++ LF ++ "- None yet for the parser" ++ LF)
           eq_refl eq_refl (" Decisions" ++ LF ++ "- Use Rocq" ++ LF)).
Defined.

Lemma bullets_skip_heading (h body : string) :
  has_char "010" h = false ->
  bullets (heading_line h ++ "- " ++ body) = bullets ("- " ++ body).
Proof.
  intros Hh. unfold bullets, bullet_lines, strip, heading_line.
  assert (Hb : rstrip ("- " ++ body) <> "") by (apply rstrip_starts_nonspace; reflexivity).
  change (lstrip (("## " ++ h ++ LF) ++ "- " ++ body))
    with (("## " ++ h ++ LF) ++ "- " ++ body).
  change (lstrip ("- " ++ body)) with ("- " ++ body).
  rewrite (rstrip_append _ _ Hb).
  replace (("## " ++ h ++ LF) ++ rstrip ("- " ++ body))
    with (("## " ++ h) ++ String "010" (rstrip ("- " ++ body)))
    by (rewrite !append_append; reflexivity).
  rewrite split_line by exact Hh.
  cbn [filter].
  assert (Hs : startswith "- " ("## " ++ h) = false).
  { unfold startswith.
    destruct (String.prefix "- " ("## " ++ h)) eqn:E; [ | reflexivity ].
    apply String.prefix_correct in E. simpl in E. discriminate E. }
  rewrite Hs. reflexivity.
Qed.

(** X14.  A Completed section left empty, with the next heading line
    directly below its own (no blank line between), is not read as empty:
    the body runs on to the heading after that, and the bullets of the
    following section are reported as completed entries. *)
Theorem empty_section_reads_next_section (pre h body : string) :
  first_heading "Completed" pre = true ->
  has_char "010" h = false ->
  contains (LF ++ "##") body = false ->
  startswith "- " body = true ->
  forall z,
    completed_tasks (pre ++ heading_line "Completed" ++ heading_line h ++ body
                     ++ (LF ++ "##") ++ z)
    = bullets body.
Proof.
  intros Hf Hh Hb Hs z. rewrite completed_tasks_by_section.
  rewrite section_text_at by exact Hf.
  destruct (startswith_bullet _ Hs) as [b ->].
  replace (heading_line h ++ ("- " ++ b) ++ (LF ++ "##") ++ z)
    with (("## " ++ h) ++ LF ++ (("- " ++ b) ++ (LF ++ "##") ++ z))
    by (unfold heading_line; rewrite !append_append; reflexivity).
  rewrite section_body_line; [ | exact Hh | reflexivity ].
  rewrite section_body_until_heading by exact Hb.
  replace (("## " ++ h) ++ LF ++ "- " ++ b) with (heading_line h ++ "- " ++ b)
    by (unfold heading_line; rewrite !append_append; reflexivity).
  apply bullets_skip_heading. exact Hh.
Qed.

Lemma empty_section_reads_next_section_witness :
  completed_tasks
    (("# Development State" ++ LF ++ LF) ++ heading_line "Completed"
     ++ heading_line "Decisions"
     ++ ("- Use Rocq" ++ LF ++ "- Keep it small" ++ LF)
     ++ (LF ++ "##") ++ (" Notes" ++ LF))
  = ["Use Rocq"; "Keep it small"].
Proof.
  exact (empty_section_reads_next_section ("# Development State" ++ LF ++ LF)
           "Decisions" ("- Use Rocq" ++ LF ++ "- Keep it small" ++ LF)
           eq_refl eq_refl eq_refl eq_refl (" Notes" ++ LF)).
Defined.

(** ** Writing the phase and the progress and reading them back *)

Section PhaseRoundTrip.







End PhaseRoundTrip.





(** ** Summaries *)

Section Slices.
Context {A : Type}.





End Slices.






(** ** Repeating a replacement *)

Section Repeat.








Variable f : field.
Variable value : string.
Hypothesis value_plain : has_char "\" value = false.
Hypothesis value_line : has_char "010" value = false.
Hypothesis value_open : has_char (field_stop f) value = false.






End Repeat.



